(** * WorkNearby: the proximity queries of [server.ts]

    The server keeps two SQLite tables, [users] and [posts], and answers
    four routes with one SQL statement each.  This development embeds the
    statements as functions on an explicit store and proves the properties
    of the specification that concern them. *)

From Stdlib Require Import List Ascii String ZArith Bool Lia Sorted Permutation.
From Stdlib Require Import Floats DecimalString.
Import ListNotations.
Local Open Scope string_scope.

(** ** Values

    A bound parameter is a JavaScript value; better-sqlite3 binds a number
    as a numeric value (NaN as NULL, since SQLite stores no NaN; a number
    that is an integer compares and computes like the same REAL), a string
    as TEXT and [null] or [undefined] as NULL. *)

Inductive jsval : Type :=
| JUndefined
| JNumber (x : float)
| JString (s : string).

Inductive sqlval : Type :=
| VNull
| VReal (x : float)
| VText (s : string).

(** The content of a REAL expression: NULL or a double. *)
Definition real : Type := option float.

(** CURRENT_TIMESTAMP, in seconds (SQLite renders it as
    'YYYY-MM-DD HH:MM:SS', a text whose order is the order of the seconds). *)
Definition timestamp : Type := Z.

Definition bind_double (x : float) : real :=
  if PrimFloat.is_nan x then None else Some x.

Definition bind (v : jsval) : sqlval :=
  match v with
  | JUndefined => VNull
  | JNumber x => match bind_double x with Some y => VReal y | None => VNull end
  | JString s => VText s
  end.

(** What the server takes from its platform: JavaScript's [parseFloat], the
    C library's [cos], [sin] and [acos] behind SQLite's math functions, and
    the connection's [foreign_keys] setting, whose default is chosen when the
    SQLite library is built. *)
Record Runtime : Type := {
  parseFloat : string -> float;
  libm_cos : float -> float;
  libm_sin : float -> float;
  libm_acos : float -> float;
  foreign_keys : bool
}.

(** ** SQL scalar expressions *)

Definition M_PI : float := 0x1.921fb54442d18p+1%float.

(** A function result or an arithmetic result that is NaN becomes NULL. *)
Definition sql_result_double (x : float) : real := bind_double x.

(** A math function of one argument: NULL on NULL. *)
Definition sql_math1 (f : float -> float) (v : real) : real :=
  match v with
  | Some x => sql_result_double (f x)
  | None => None
  end.

Definition sql_arith (op : float -> float -> float) (a b : real) : real :=
  match a, b with
  | Some x, Some y => sql_result_double (op x y)
  | _, _ => None
  end.

Definition sql_radians : real -> real :=
  sql_math1 (fun x => (x * (M_PI / 180))%float).
Definition sql_cos (rt : Runtime) : real -> real := sql_math1 (libm_cos rt).
Definition sql_sin (rt : Runtime) : real -> real := sql_math1 (libm_sin rt).
Definition sql_acos (rt : Runtime) : real -> real := sql_math1 (libm_acos rt).
Definition sql_mul : real -> real -> real := sql_arith PrimFloat.mul.
Definition sql_add : real -> real -> real := sql_arith PrimFloat.add.
Definition sql_sub : real -> real -> real := sql_arith PrimFloat.sub.

(** [a < b] for a REAL expression [a] and a bound parameter [b].  Neither
    operand is a column or a CAST, so neither has an affinity, no conversion
    is applied before the comparison and the values are compared as they
    are (SQLite, "Datatypes", sections 4.1 and 4.2): NULL gives NULL, two
    numbers compare as doubles, and a number is less than any TEXT value,
    whatever the text. *)
Definition sql_lt (a : real) (b : sqlval) : option bool :=
  match a, b with
  | None, _ => None
  | Some _, VNull => None
  | Some x, VReal y => Some (x <? y)%float
  | Some _, VText _ => Some true
  end.

(** A WHERE clause keeps a row when its condition is true, not when it is
    false or NULL. *)
Definition where_true (c : option bool) : bool :=
  match c with
  | Some true => true
  | _ => false
  end.

(** The distance expression of both nearby statements (server.ts, lines 62
    and 80), with [p1], [p2], [p3] its three parameters:
    [6371 * acos(cos(radians(?)) * cos(radians(lat)) * cos(radians(lng) - radians(?))
                 + sin(radians(?)) * sin(radians(lat)))]. *)
Definition distance (rt : Runtime) (p1 p2 p3 : real) (lat lng : real) : real :=
  sql_mul (Some 6371%float)
    (sql_acos rt
       (sql_add
          (sql_mul
             (sql_mul (sql_cos rt (sql_radians p1)) (sql_cos rt (sql_radians lat)))
             (sql_cos rt (sql_sub (sql_radians lng) (sql_radians p2))))
          (sql_mul (sql_sin rt (sql_radians p3)) (sql_sin rt (sql_radians lat))))).

(** ORDER BY ... ASC on a REAL key: NULL first, then the doubles upwards. *)
Definition order_le (a b : real) : bool :=
  match a, b with
  | None, _ => true
  | Some _, None => false
  | Some x, Some y => (x <=? y)%float
  end.

Section OrderBy.
Context {H : Type} (key : H -> real).

Fixpoint sorter_insert (h : H) (l : list H) : list H :=
  match l with
  | [] => [h]
  | h' :: t =>
      if order_le (key h) (key h') then h :: l else h' :: sorter_insert h t
  end.

(** The sorter: rows with equal keys stay in the order of the scan (SQL
    itself promises no order among them). *)
Fixpoint order_by (l : list H) : list H :=
  match l with
  | [] => []
  | h :: t => sorter_insert h (order_by t)
  end.
End OrderBy.

(** ** Tables (server.ts, lines 9-30) *)

Record user_row : Type := {
  u_id : option string;          (* id TEXT PRIMARY KEY *)
  u_name : string;               (* name TEXT NOT NULL *)
  u_role : string;               (* role TEXT CHECK(...) NOT NULL *)
  u_lat : real;                  (* lat REAL *)
  u_lng : real;                  (* lng REAL *)
  u_last_active : timestamp      (* last_active DATETIME *)
}.

Record post_row : Type := {
  p_id : option string;          (* id TEXT PRIMARY KEY *)
  p_user_id : string;            (* user_id TEXT NOT NULL *)
  p_title : string;              (* title TEXT NOT NULL *)
  p_description : option string; (* description TEXT *)
  p_category : option string;    (* category TEXT *)
  p_lat : float;                 (* lat REAL NOT NULL *)
  p_lng : float;                 (* lng REAL NOT NULL *)
  p_created_at : timestamp       (* created_at DATETIME *)
}.

(** The database: each table as the list of its rows in scan (rowid) order. *)
Record Database : Type := {
  users : list user_row;
  posts : list post_row
}.

Definition empty_db : Database := {| users := []; posts := [] |}.

Inductive sqlite_error : Type :=
| SQLITE_CONSTRAINT_NOTNULL
| SQLITE_CONSTRAINT_CHECK
| SQLITE_CONSTRAINT_PRIMARYKEY
| SQLITE_CONSTRAINT_FOREIGNKEY.

(** The outcome of [stmt.run]: the database after the statement, or the
    exception it throws (the statement is then rolled back). *)
Inductive run_result : Type :=
| Ran (d : Database)
| Thrown (e : sqlite_error).

(** [id = i] on a primary key column: never true of a NULL id. *)
Definition user_has_id (i : string) (u : user_row) : bool :=
  match u_id u with
  | Some j => String.eqb i j
  | None => false
  end.

Definition post_has_id (i : string) (p : post_row) : bool :=
  match p_id p with
  | Some j => String.eqb i j
  | None => false
  end.

(** CHECK(role IN ('worker', 'employer')) *)
Definition role_check (role : string) : bool :=
  String.eqb role "worker" || String.eqb role "employer".

(** ** Statements *)

(** [INSERT OR REPLACE INTO users (id, name, role, lat, lng, last_active)
     VALUES (?, ?, ?, ?, ?, CURRENT_TIMESTAMP)] (line 41).  NOT NULL and CHECK
    violations abort; a row with the same id is deleted and the new row gets
    a fresh rowid, after all others. *)
Definition insert_or_replace_user (now : timestamp)
    (id name role : option string) (lat lng : real) (d : Database) : run_result :=
  match name, role with
  | None, _ => Thrown SQLITE_CONSTRAINT_NOTNULL
  | Some _, None => Thrown SQLITE_CONSTRAINT_NOTNULL
  | Some n, Some r =>
      if role_check r then
        let row := {| u_id := id; u_name := n; u_role := r;
                      u_lat := lat; u_lng := lng; u_last_active := now |} in
        let kept := match id with
                    | Some i => filter (fun u => negb (user_has_id i u)) (users d)
                    | None => users d
                    end in
        Ran {| users := kept ++ [row]; posts := posts d |}
      else Thrown SQLITE_CONSTRAINT_CHECK
  end.

(** [INSERT INTO posts (id, user_id, title, description, category, lat, lng)
     VALUES (?, ?, ?, ?, ?, ?, ?)] (line 48): NOT NULL columns first, then the
    primary key, then (when enforced) the foreign key. *)
Definition insert_post (rt : Runtime) (now : timestamp)
    (id user_id title description category : option string) (lat lng : real)
    (d : Database) : run_result :=
  match user_id, title, lat, lng with
  | Some o, Some t, Some la, Some ln =>
      if match id with
         | Some i => existsb (post_has_id i) (posts d)
         | None => false
         end
      then Thrown SQLITE_CONSTRAINT_PRIMARYKEY
      else if foreign_keys rt && negb (existsb (user_has_id o) (users d))
      then Thrown SQLITE_CONSTRAINT_FOREIGNKEY
      else
        let row := {| p_id := id; p_user_id := o; p_title := t;
                      p_description := description; p_category := category;
                      p_lat := la; p_lng := ln; p_created_at := now |} in
        Ran {| users := users d; posts := posts d ++ [row] |}
  | _, _, _, _ => Thrown SQLITE_CONSTRAINT_NOTNULL
  end.

(** A row of the workers statement: [SELECT *, (...) AS distance]. *)
Record worker_hit : Type := {
  w_user : user_row;
  w_distance : real
}.

(** [SELECT *, (...) AS distance FROM users
     WHERE role = 'worker' AND distance < ? ORDER BY distance ASC]
    (lines 78-84), with its four parameters. *)
Definition select_workers (rt : Runtime) (p1 p2 p3 : real) (p4 : sqlval)
    (d : Database) : list worker_hit :=
  order_by w_distance
    (filter
       (fun h => String.eqb (u_role (w_user h)) "worker"
                 && where_true (sql_lt (w_distance h) p4))
       (map (fun u => {| w_user := u;
                         w_distance := distance rt p1 p2 p3 (u_lat u) (u_lng u) |})
            (users d))).

(** [FROM posts p JOIN users u ON p.user_id = u.id]: an inner join, each
    post with the users whose id is its [user_id]. *)
Definition posts_join_users (d : Database) : list (post_row * user_row) :=
  flat_map
    (fun p => map (pair p) (filter (user_has_id (p_user_id p)) (users d)))
    (posts d).

(** A row of the posts statement: [SELECT p.*, u.name as user_name, (...) AS distance]. *)
Record post_hit : Type := {
  h_post : post_row;
  h_user_name : string;
  h_distance : real
}.

(** The posts statement (lines 60-67). *)
Definition select_posts (rt : Runtime) (p1 p2 p3 : real) (p4 : sqlval)
    (d : Database) : list post_hit :=
  order_by h_distance
    (filter
       (fun h => where_true (sql_lt (h_distance h) p4))
       (map (fun pu => {| h_post := fst pu;
                          h_user_name := u_name (snd pu);
                          h_distance := distance rt p1 p2 p3
                                          (Some (p_lat (fst pu))) (Some (p_lng (fst pu))) |})
            (posts_join_users d))).

(** ** Routes *)

(** The body of POST /api/users: text fields hold a string or are missing,
    coordinates hold a number or are missing (types.ts, [User]).  Other JSON
    is not in this type: a number in a text field or a string in a
    coordinate is converted by the column's affinity, and a boolean, an
    array or an object makes [stmt.run] throw before the statement runs. *)
Record user_body : Type := {
  ub_id : option string;
  ub_name : option string;
  ub_role : option string;
  ub_lat : option float;
  ub_lng : option float
}.

(** The body of POST /api/posts, with fields of the same kinds. *)
Record post_body : Type := {
  pb_id : option string;
  pb_userId : option string;
  pb_title : option string;
  pb_description : option string;
  pb_category : option string;
  pb_lat : option float;
  pb_lng : option float
}.

(** The query string of the two nearby routes. *)
Record nearby_query : Type := {
  q_lat : option string;
  q_lng : option string;
  q_radius : option string
}.

(** What the client gets: [{success: true}], or the error of an exception
    that no handler catches. *)
Inductive response : Type :=
| Success
| Uncaught (e : sqlite_error).

Definition bind_number (x : option float) : real :=
  match x with
  | Some v => bind_double v
  | None => None
  end.

Definition respond (d : Database) (r : run_result) : response * Database :=
  match r with
  | Ran d' => (Success, d')
  | Thrown e => (Uncaught e, d)
  end.

(** POST /api/users (lines 39-44). *)
Definition post_users (now : timestamp) (body : user_body) (d : Database)
    : response * Database :=
  respond d
    (insert_or_replace_user now (ub_id body) (ub_name body) (ub_role body)
       (bind_number (ub_lat body)) (bind_number (ub_lng body)) d).

(** POST /api/posts (lines 46-51). *)
Definition post_posts (rt : Runtime) (now : timestamp) (body : post_body)
    (d : Database) : response * Database :=
  respond d
    (insert_post rt now (pb_id body) (pb_userId body) (pb_title body)
       (pb_description body) (pb_category body)
       (bind_number (pb_lat body)) (bind_number (pb_lng body)) d).

(** [parseFloat(x as string)]; a missing parameter gives NaN. *)
Definition parse_coordinate (rt : Runtime) (x : option string) : float :=
  match x with
  | Some s => parseFloat rt s
  | None => nan
  end.

(** [const { lat, lng, radius = 50 } = req.query]: the radius is the number
    50 when the parameter is missing and the parameter's string otherwise. *)
Definition radius_value (x : option string) : jsval :=
  match x with
  | Some s => JString s
  | None => JNumber 50%float
  end.

(** GET /api/posts/nearby (lines 53-71). *)
Definition get_posts_nearby (rt : Runtime) (q : nearby_query) (d : Database)
    : list post_hit :=
  let userLat := parse_coordinate rt (q_lat q) in
  let userLng := parse_coordinate rt (q_lng q) in
  let radius := radius_value (q_radius q) in
  select_posts rt (bind_double userLat) (bind_double userLng) (bind_double userLat)
    (bind radius) d.

(** GET /api/workers/nearby (lines 73-88). *)
Definition get_workers_nearby (rt : Runtime) (q : nearby_query) (d : Database)
    : list worker_hit :=
  let userLat := parse_coordinate rt (q_lat q) in
  let userLng := parse_coordinate rt (q_lng q) in
  let radius := radius_value (q_radius q) in
  select_workers rt (bind_double userLat) (bind_double userLng) (bind_double userLat)
    (bind radius) d.

(** ** Responses of the nearby routes

    [res.json(rows)]: each row becomes an object with one member per column
    of the SELECT, in the order of the columns. *)
Inductive json : Type :=
| JsonNull
| JsonNumber (x : float)
| JsonString (s : string)
| JsonTime (t : timestamp).

Definition json_text (v : option string) : json :=
  match v with
  | Some s => JsonString s
  | None => JsonNull
  end.

Definition json_real (v : real) : json :=
  match v with
  | Some x => JsonNumber x
  | None => JsonNull
  end.

(** [SELECT *, (...) AS distance FROM users]: the six columns of the table,
    then the distance. *)
Definition worker_json (h : worker_hit) : list (string * json) :=
  [ ("id", json_text (u_id (w_user h)));
    ("name", JsonString (u_name (w_user h)));
    ("role", JsonString (u_role (w_user h)));
    ("lat", json_real (u_lat (w_user h)));
    ("lng", json_real (u_lng (w_user h)));
    ("last_active", JsonTime (u_last_active (w_user h)));
    ("distance", json_real (w_distance h)) ].

(** ** Histories

    The states the server can be in are those the two writing routes build
    from the empty database. *)
Inductive request : Type :=
| PostUsers (now : timestamp) (body : user_body)
| PostPosts (now : timestamp) (body : post_body).

Definition handle (rt : Runtime) (r : request) (d : Database) : Database :=
  match r with
  | PostUsers now body => snd (post_users now body d)
  | PostPosts now body => snd (post_posts rt now body d)
  end.

Definition replay (rt : Runtime) (rs : list request) : Database :=
  fold_left (fun d r => handle rt r d) rs empty_db.

(** ** Concrete runs

    A runtime to run the routes on concrete requests: [parseFloat] on
    decimal integer literals, and the second-order expansions of [cos] and
    [sin] at 0 and of [acos] at 1, which are exact at those points. *)

Definition digit (c : Ascii.ascii) : option Z :=
  let n := Z.of_nat (Ascii.nat_of_ascii c) in
  if (48 <=? n)%Z && (n <=? 57)%Z then Some (n - 48)%Z else None.

Fixpoint digits (acc : Z) (s : string) : option Z :=
  match s with
  | EmptyString => Some acc
  | String c t =>
      match digit c with
      | Some k => digits (10 * acc + k)%Z t
      | None => None
      end
  end.

Definition parse_integer (s : string) : float :=
  match s with
  | EmptyString => nan
  | String c t =>
      if Ascii.eqb c "-"%char then
        match t, digits 0 t with
        | String _ _, Some z => (- PrimFloat.of_uint63 (Uint63.of_Z z))%float
        | _, _ => nan
        end
      else
        match digits 0 s with
        | Some z => PrimFloat.of_uint63 (Uint63.of_Z z)
        | None => nan
        end
  end.

Definition example_runtime : Runtime := {|
  parseFloat := parse_integer;
  libm_cos := fun x => (1 - x * x / 2)%float;
  libm_sin := fun x => x;
  libm_acos := fun x => PrimFloat.sqrt (2 * (1 - x))%float;
  foreign_keys := false
|}.

Definition worker_at (id : string) (lat lng : float) : user_body :=
  {| ub_id := Some id; ub_name := Some id; ub_role := Some "worker";
     ub_lat := Some lat; ub_lng := Some lng |}.

Definition listing_at (id owner : string) (lat lng : float) : post_body :=
  {| pb_id := Some id; pb_userId := Some owner; pb_title := Some "job";
     pb_description := None; pb_category := None;
     pb_lat := Some lat; pb_lng := Some lng |}.

Definition at_origin (radius : option string) : nearby_query :=
  {| q_lat := Some "0"; q_lng := Some "0"; q_radius := radius |}.

(** Worker "b" joins before worker "a", both at the origin. *)
Definition two_at_origin : Database :=
  replay example_runtime
    [PostUsers 1%Z (worker_at "b" 0 0); PostUsers 2%Z (worker_at "a" 0 0)].

(** One worker at the origin and one a degree of longitude (about 111 km)
    to the east. *)
Definition near_and_far : Database :=
  replay example_runtime
    [PostUsers 1%Z (worker_at "near" 0 0); PostUsers 2%Z (worker_at "far" 0 1)].

(** An employer with one listing at the origin and one a degree of longitude
    to the east. *)
Definition listings_near_and_far : Database :=
  replay example_runtime
    [PostUsers 1%Z (worker_at "u" 0 0);
     PostPosts 2%Z (listing_at "p_near" "u" 0 0);
     PostPosts 3%Z (listing_at "p_far" "u" 0 1)].

(** A worker who joined without a location. *)
Definition no_location : Database :=
  replay example_runtime
    [PostUsers 1%Z {| ub_id := Some "n"; ub_name := Some "n"; ub_role := Some "worker";
                      ub_lat := None; ub_lng := None |}].

(** A store with a listing whose owner is not in [users], given as it is.
    The server opens the file it finds ([new Database("worknearby.db")],
    [CREATE TABLE IF NOT EXISTS]), so its store is what the file holds; the
    posts route itself refuses such a listing while foreign keys are
    enforced. *)
Definition dangling_store : Database :=
  {| users := [];
     posts := [ {| p_id := Some "p1"; p_user_id := "ghost"; p_title := "job";
                   p_description := None; p_category := None;
                   p_lat := 0; p_lng := 0; p_created_at := 1%Z |} ] |}.

(** A runtime that has, at the angle of 0.08 degrees and at 0, the values
    the C library gives there (and [example_runtime]'s elsewhere), reads
    "0.08" as well, and enforces foreign keys. *)
Definition libm_at_0_08 : Runtime := {|
  parseFloat := fun s =>
    if String.eqb s "0.08" then 0x1.47ae147ae147bp-4%float else parse_integer s;
  libm_cos := fun x =>
    if (x =? 0x1.6e05a695f8191p-10)%float then 0x1.ffffdf4abdd1ep-1%float
    else libm_cos example_runtime x;
  libm_sin := fun x =>
    if (x =? 0x1.6e05a695f8191p-10)%float then 0x1.6e059ecaa87dcp-10%float
    else libm_sin example_runtime x;
  libm_acos := libm_acos example_runtime;
  foreign_keys := true
|}.

(** A worker who joined at latitude 0.08, longitude 0. *)
Definition worker_at_0_08 : Database :=
  replay libm_at_0_08
    [PostUsers 1%Z (worker_at "w" 0x1.47ae147ae147bp-4 0)].

(** What the specification asks of ties: of two rows with the same
    distance, the one with the smaller id comes first. *)
Definition id_le (a b : option string) : bool :=
  match a, b with
  | None, _ => true
  | Some _, None => false
  | Some x, Some y => String.leb x y
  end.

Definition ties_by_id {H : Type} (key : H -> real) (id : H -> option string)
    (l : list H) : Prop :=
  forall i j a b,
    (i < j)%nat -> nth_error l i = Some a -> nth_error l j = Some b ->
    key a = key b -> id_le (id a) (id b) = true.

(** Non-decreasing distances: both are numbers and the first is at most
    the second. *)
Definition distance_le (a b : real) : Prop :=
  match a, b with
  | Some x, Some y => (x <=? y)%float = true
  | _, _ => False
  end.

(** No two rows of [users] carry the same (non-NULL) id. *)
Definition unique_user_ids (d : Database) : Prop :=
  forall i, (List.length (filter (user_has_id i) (users d)) <= 1)%nat.

(** The NOT NULL columns of a listing are all given. *)
Definition required_given (b : post_body) : Prop :=
  pb_userId b <> None /\ pb_title b <> None /\
  bind_number (pb_lat b) <> None /\ bind_number (pb_lng b) <> None.

(** A REAL value as SQLite holds it: never NaN. *)
Definition valid_real (a : real) : Prop :=
  match a with
  | Some x => PrimFloat.is_nan x = false
  | None => True
  end.

(** No two rows of [posts] carry the same (non-NULL) id. *)
Definition unique_post_ids (d : Database) : Prop :=
  forall i, (List.length (filter (post_has_id i) (posts d)) <= 1)%nat.

(** Every listing's [user_id] is the id of a stored participant. *)
Definition owners_resolved (d : Database) : Prop :=
  forall p, In p (posts d) -> existsb (user_has_id (p_user_id p)) (users d) = true.

(** [example_runtime] on a connection that enforces foreign keys. *)
Definition enforcing_runtime : Runtime := {|
  parseFloat := parseFloat example_runtime;
  libm_cos := libm_cos example_runtime;
  libm_sin := libm_sin example_runtime;
  libm_acos := libm_acos example_runtime;
  foreign_keys := true
|}.

(** The server's state after further requests, from any state. *)
Definition serve (rt : Runtime) (rs : list request) (d : Database) : Database :=
  fold_left (fun d r => handle rt r d) rs d.

(** ** The client (App.tsx)

    The component's handlers, as functions of the component's state: each
    gives the request it sends, if it sends one, and the state it sets.
    What the browser supplies is a parameter: the text that a number of a
    template literal becomes in the query string the server reads, and
    [toLowerCase]. *)

Module App.

Record Browser : Type := {
  numberToString : float -> string;
  toLowerCase : string -> string
}.

(** types.ts, line 1 *)
Inductive Role : Type :=
| worker
| employer.

Definition role_text (r : Role) : string :=
  match r with
  | worker => "worker"
  | employer => "employer"
  end.

(** types.ts, lines 3-10 (the client never sets [lastActive]) *)
Record User : Type := {
  id : string;
  name : string;
  as_role : Role;
  at_lat : option float;
  at_lng : option float
}.

Record Location : Type := {
  lat : float;
  lng : float
}.

(** The state of the component (lines 26-39). *)
Record State : Type := {
  user : option User;
  role : Role;
  location : option Location;
  posts : list post_hit;
  workers : list worker_hit;
  isPosting : bool;
  searchQuery : string;
  postTitle : string;
  postDesc : string;
  postCategory : string
}.

(** A number through [JSON.stringify] and the server's JSON parser: NaN and
    the infinities are written as [null], a zero as [0]. *)
Definition json_number (x : float) : option float :=
  if PrimFloat.is_finite x then
    Some (if PrimFloat.is_zero x then 0%float else x)
  else None.

Definition json_optional_number (x : option float) : option float :=
  match x with
  | Some v => json_number v
  | None => None
  end.

(** [JSON.stringify(newUser)] as the body the server reads. *)
Definition stringify_user (u : User) : user_body :=
  {| ub_id := Some (id u);
     ub_name := Some (name u);
     ub_role := Some (role_text (as_role u));
     ub_lat := json_optional_number (at_lat u);
     ub_lng := json_optional_number (at_lng u) |}.

(** [handleJoin] (lines 85-105): nothing without a location; else the body
    posted to /api/users and the state after [setUser(newUser)].  The
    response is not looked at. *)
Definition handleJoin (MOCK_USER_ID : string) (st : State) (name : string)
    : option (user_body * State) :=
  match location st with
  | None => None
  | Some loc =>
      let newUser := {| id := MOCK_USER_ID; name := name; as_role := role st;
                        at_lat := Some (lat loc); at_lng := Some (lng loc) |} in
      Some (stringify_user newUser,
            {| user := Some newUser; role := role st; location := location st;
               posts := posts st; workers := workers st;
               isPosting := isPosting st; searchQuery := searchQuery st;
               postTitle := postTitle st; postDesc := postDesc st;
               postCategory := postCategory st |})
  end.

(** [handleCreatePost] (lines 107-135), with the random id as a parameter:
    nothing without a user and a location; else the body posted to
    /api/posts and the state after the form is reset. *)
Definition handleCreatePost (post_id : string) (st : State)
    : option (post_body * State) :=
  match user st, location st with
  | Some u, Some loc =>
      Some ({| pb_id := Some post_id;
               pb_userId := Some (id u);
               pb_title := Some (postTitle st);
               pb_description := Some (postDesc st);
               pb_category := Some (postCategory st);
               pb_lat := json_number (lat loc);
               pb_lng := json_number (lng loc) |},
            {| user := user st; role := role st; location := location st;
               posts := posts st; workers := workers st;
               isPosting := false; searchQuery := searchQuery st;
               postTitle := ""; postDesc := "";
               postCategory := postCategory st |})
  | _, _ => None
  end.

(** The query of [fetchNearby] (lines 70 and 75): [lat] and [lng], no
    radius. *)
Definition nearby_request (br : Browser) (loc : Location) : nearby_query :=
  {| q_lat := Some (numberToString br (lat loc));
     q_lng := Some (numberToString br (lng loc));
     q_radius := None |}.

(** [fetchNearby] (lines 64-83) against a server in state [d]: an employer
    gets the workers route's rows into [workers], a worker the posts
    route's rows into [posts]. *)
Definition fetchNearby (rt : Runtime) (br : Browser) (d : Database) (st : State)
    : State :=
  match location st with
  | None => st
  | Some loc =>
      match role st with
      | employer =>
          {| user := user st; role := role st; location := location st;
             posts := posts st;
             workers := get_workers_nearby rt (nearby_request br loc) d;
             isPosting := isPosting st; searchQuery := searchQuery st;
             postTitle := postTitle st; postDesc := postDesc st;
             postCategory := postCategory st |}
      | worker =>
          {| user := user st; role := role st; location := location st;
             posts := get_posts_nearby rt (nearby_request br loc) d;
             workers := workers st;
             isPosting := isPosting st; searchQuery := searchQuery st;
             postTitle := postTitle st; postDesc := postDesc st;
             postCategory := postCategory st |}
      end
  end.

(** [s.includes(sub)]: [sub] occurs in [s]. *)
Fixpoint includes (s sub : string) : bool :=
  if String.prefix sub s then true
  else match s with
       | EmptyString => false
       | String _ t => includes t sub
       end.

(** A value, or the TypeError of a method call on [null]. *)
Inductive outcome (A : Type) : Type :=
| Value (a : A)
| TypeError.
Arguments Value {A} a.
Arguments TypeError {A}.

(** [array.filter(f)] for a callback that may throw: the elements are
    tested in order and the first exception ends the call. *)
Fixpoint filter_throwing {A : Type} (f : A -> outcome bool) (l : list A)
    : outcome (list A) :=
  match l with
  | [] => Value []
  | a :: t =>
      match f a with
      | TypeError => TypeError
      | Value keep =>
          match filter_throwing f t with
          | TypeError => TypeError
          | Value r => Value (if keep then a :: r else r)
          end
      end
  end.

(** The callback on a listing (lines 140-143): the title is tried first,
    the category only when the title does not match; the category of a row
    may be [null]. *)
Definition post_matches (br : Browser) (query : string) (p : post_hit)
    : outcome bool :=
  if includes (toLowerCase br (p_title (h_post p))) (toLowerCase br query)
  then Value true
  else match p_category (h_post p) with
       | Some c => Value (includes (toLowerCase br c) (toLowerCase br query))
       | None => TypeError
       end.

Definition worker_matches (br : Browser) (query : string) (w : worker_hit)
    : outcome bool :=
  Value (includes (toLowerCase br (u_name (w_user w))) (toLowerCase br query)).

(** [filteredItems] (lines 137-145): the rows shown. *)
Definition filteredItems (br : Browser) (st : State)
    : outcome (list worker_hit + list post_hit) :=
  match role st with
  | employer =>
      match filter_throwing (worker_matches br (searchQuery st)) (workers st) with
      | Value l => Value (inl l)
      | TypeError => TypeError
      end
  | worker =>
      match filter_throwing (post_matches br (searchQuery st)) (posts st) with
      | Value l => Value (inr l)
      | TypeError => TypeError
      end
  end.

End App.

(** A browser for concrete runs: the decimal digits of whole numbers (and
    "NaN" for every other number), and lower-casing of the letters A to Z. *)
Definition whole (x : float) : option Z :=
  if PrimFloat.is_zero x then Some 0%Z
  else if PrimFloat.is_finite x then
    let (f, e) := PrimFloat.frshiftexp (PrimFloat.abs x) in
    let m := Uint63.to_Z (PrimFloat.normfr_mantissa f) in
    let k := (Uint63.to_Z e - FloatOps.shift - 53)%Z in
    let sign := if (x <? 0)%float then (-1)%Z else 1%Z in
    if (0 <=? k)%Z then Some (sign * (m * 2 ^ k))%Z
    else if (m mod 2 ^ (- k) =? 0)%Z then Some (sign * (m / 2 ^ (- k)))%Z
    else None
  else None.

Definition show_whole (x : float) : string :=
  match whole x with
  | Some z => DecimalString.NilZero.string_of_int (Z.to_int z)
  | None => "NaN"
  end.

Definition lower_ascii (c : Ascii.ascii) : Ascii.ascii :=
  let n := Ascii.nat_of_ascii c in
  if (65 <=? n)%nat && (n <=? 90)%nat then Ascii.ascii_of_nat (n + 32) else c.

Fixpoint lower_string (s : string) : string :=
  match s with
  | EmptyString => EmptyString
  | String c t => String (lower_ascii c) (lower_string t)
  end.

Definition example_browser : App.Browser := {|
  App.numberToString := show_whole;
  App.toLowerCase := lower_string
|}.

Definition example_state (r : App.Role) (query : string) : App.State := {|
  App.user := None;
  App.role := r;
  App.location := Some {| App.lat := 0; App.lng := 0 |};
  App.posts := [];
  App.workers := [];
  App.isPosting := false;
  App.searchQuery := query;
  App.postTitle := "Cleaning";
  App.postDesc := "";
  App.postCategory := "General"
|}.

(** ** Binary64 order

    SQLite compares two REAL values as C doubles.  The lemmas below give
    the order facts about [PrimFloat.ltb] and [PrimFloat.leb] that the
    statements' WHERE and ORDER BY clauses rely on. *)

Module F64.

(** Comparison results of two finite operands, read as arithmetic facts
    on exponent and mantissa. *)
Ltac cmp_cases :=
  repeat match goal with
  | H : context [Z.compare ?a ?b] |- _ => destruct (Z.compare_spec a b)
  | |- context [Z.compare ?a ?b] => destruct (Z.compare_spec a b)
  | H : context [Pos.compare_cont Eq ?a ?b] |- _ =>
      change (Pos.compare_cont Eq a b) with (Pos.compare a b) in *;
      destruct (Pos.compare_spec a b)
  | |- context [Pos.compare_cont Eq ?a ?b] =>
      change (Pos.compare_cont Eq a b) with (Pos.compare a b) in *;
      destruct (Pos.compare_spec a b)
  end;
  simpl in *; subst; try discriminate; try reflexivity; try lia.

Ltac by_cases3 a b c :=
  destruct a as [[|]|[|]| |[|] ? ?], b as [[|]|[|]| |[|] ? ?], c as [[|]|[|]| |[|] ? ?];
  simpl in *; try discriminate; try reflexivity; cmp_cases.

Ltac by_cases2 a b :=
  destruct a as [[|]|[|]| |[|] ? ?], b as [[|]|[|]| |[|] ? ?];
  simpl in *; try discriminate; try reflexivity; cmp_cases.

Lemma SFltb_trans (a b c : spec_float) :
  SFltb a b = true -> SFltb b c = true -> SFltb a c = true.
Proof. unfold SFltb. by_cases3 a b c. Qed.

Lemma SFleb_trans (a b c : spec_float) :
  SFleb a b = true -> SFleb b c = true -> SFleb a c = true.
Proof. unfold SFleb. by_cases3 a b c. Qed.

Lemma SFltb_leb_trans (a b c : spec_float) :
  SFltb a b = true -> SFleb b c = true -> SFltb a c = true.
Proof. unfold SFltb, SFleb. by_cases3 a b c. Qed.

Lemma SFleb_total (a b : spec_float) :
  SFeqb a a = true -> SFeqb b b = true -> SFleb a b = false -> SFltb b a = true.
Proof. unfold SFeqb, SFleb, SFltb. by_cases2 a b. Qed.

Lemma SFltb_not_nan (a b : spec_float) :
  SFltb a b = true -> SFeqb a a = true /\ SFeqb b b = true.
Proof. unfold SFeqb, SFltb. by_cases2 a b; split; cmp_cases. Qed.

Lemma SFltb_leb (a b : spec_float) : SFltb a b = true -> SFleb a b = true.
Proof. unfold SFleb, SFltb. by_cases2 a b. Qed.

Lemma SFltb_asym (a b : spec_float) : SFltb a b = true -> SFleb b a = false.
Proof. unfold SFleb, SFltb. by_cases2 a b. Qed.

Lemma SFleb_refl (a : spec_float) : SFeqb a a = true -> SFleb a a = true.
Proof. unfold SFeqb, SFleb. destruct (SFcompare a a) as [[ | | ]|]; auto. Qed.

Lemma is_nan_spec (x : float) :
  PrimFloat.is_nan x = false <-> SFeqb (Prim2SF x) (Prim2SF x) = true.
Proof.
  unfold PrimFloat.is_nan. rewrite eqb_spec.
  destruct (SFeqb (Prim2SF x) (Prim2SF x)); simpl; split; congruence.
Qed.

Lemma ltb_trans (x y z : float) :
  (x <? y)%float = true -> (y <? z)%float = true -> (x <? z)%float = true.
Proof. rewrite !ltb_spec. apply SFltb_trans. Qed.

Lemma leb_trans (x y z : float) :
  (x <=? y)%float = true -> (y <=? z)%float = true -> (x <=? z)%float = true.
Proof. rewrite !leb_spec. apply SFleb_trans. Qed.

Lemma ltb_leb_trans (x y z : float) :
  (x <? y)%float = true -> (y <=? z)%float = true -> (x <? z)%float = true.
Proof. rewrite !ltb_spec, leb_spec. apply SFltb_leb_trans. Qed.

Lemma leb_total (x y : float) :
  PrimFloat.is_nan x = false -> PrimFloat.is_nan y = false ->
  (x <=? y)%float = false -> (y <? x)%float = true.
Proof. rewrite !is_nan_spec, leb_spec, ltb_spec. apply SFleb_total. Qed.

Lemma ltb_leb (x y : float) : (x <? y)%float = true -> (x <=? y)%float = true.
Proof. rewrite ltb_spec, leb_spec. apply SFltb_leb. Qed.

Lemma ltb_not_nan (x y : float) :
  (x <? y)%float = true -> PrimFloat.is_nan x = false /\ PrimFloat.is_nan y = false.
Proof. rewrite !is_nan_spec, ltb_spec. apply SFltb_not_nan. Qed.

Lemma ltb_asym (x y : float) : (x <? y)%float = true -> (y <=? x)%float = false.
Proof. rewrite ltb_spec, leb_spec. apply SFltb_asym. Qed.

Lemma leb_refl (x : float) : PrimFloat.is_nan x = false -> (x <=? x)%float = true.
Proof. rewrite is_nan_spec, leb_spec. apply SFleb_refl. Qed.

End F64.

(** ** The sorter *)

Section OrderByFacts.
Context {H : Type} (key : H -> real).

Let le (a b : H) : Prop := order_le (key a) (key b) = true.

Lemma sorter_insert_perm (h : H) (l : list H) :
  Permutation (sorter_insert key h l) (h :: l).
Proof.
  induction l as [|h' t IH]; simpl; [reflexivity|].
  destruct (order_le (key h) (key h')); [reflexivity|].
  rewrite IH. apply perm_swap.
Qed.

Lemma order_by_perm (l : list H) : Permutation (order_by key l) l.
Proof.
  induction l as [|h t IH]; simpl; [reflexivity|].
  rewrite sorter_insert_perm. now constructor.
Qed.

Lemma order_by_In (l : list H) (h : H) : In h (order_by key l) <-> In h l.
Proof.
  split; apply Permutation_in; [|symmetry]; apply order_by_perm.
Qed.

Lemma order_le_total (a b : real) :
  valid_real a -> valid_real b -> order_le a b = false -> order_le b a = true.
Proof.
  destruct a as [x|], b as [y|]; simpl; try congruence.
  intros Hx Hy Hxy. apply F64.ltb_leb, F64.leb_total; assumption.
Qed.

Lemma order_le_trans (a b c : real) :
  order_le a b = true -> order_le b c = true -> order_le a c = true.
Proof.
  destruct a as [x|], b as [y|], c as [z|]; simpl; try congruence.
  apply F64.leb_trans.
Qed.

Lemma sorter_insert_sorted (h : H) (l : list H) :
  valid_real (key h) -> Forall (fun x => valid_real (key x)) l ->
  StronglySorted le l -> StronglySorted le (sorter_insert key h l).
Proof.
  intros Hh Hl Hs. induction Hs as [|h' t Hs IH Hall]; simpl.
  - repeat constructor.
  - inversion Hl as [|? ? Hh' Ht]; subst.
    destruct (order_le (key h) (key h')) eqn:E.
    + constructor; [constructor; assumption|].
      constructor; [exact E|].
      eapply Forall_impl; [|exact Hall].
      intros x Hx. unfold le in *. eapply order_le_trans; eassumption.
    + constructor; [apply IH; assumption|].
      apply Forall_forall. intros x Hx.
      apply (Permutation_in _ (sorter_insert_perm h t)) in Hx.
      destruct Hx as [<-|Hx].
      * apply order_le_total; assumption.
      * rewrite Forall_forall in Hall. now apply Hall.
Qed.

Lemma order_by_sorted (l : list H) :
  Forall (fun x => valid_real (key x)) l -> StronglySorted le (order_by key l).
Proof.
  induction 1 as [|h t Hh Ht IH]; simpl; [constructor|].
  apply sorter_insert_sorted; [assumption| |assumption].
  apply Forall_forall. intros x Hx. apply (proj1 (order_by_In t x)) in Hx.
  rewrite Forall_forall in Ht. now apply Ht.
Qed.
End OrderByFacts.

(** ** Facts about the expressions *)

Lemma bind_double_valid (x : float) : valid_real (bind_double x).
Proof.
  unfold bind_double. destruct (PrimFloat.is_nan x) eqn:E; simpl; auto.
Qed.

Lemma sql_arith_valid (op : float -> float -> float) (a b : real) :
  valid_real (sql_arith op a b).
Proof.
  destruct a, b; simpl; auto. apply bind_double_valid.
Qed.

Lemma sql_arith_some (op : float -> float -> float) (a b : real) (x : float) :
  sql_arith op a b = Some x -> a <> None /\ b <> None.
Proof.
  destruct a, b; simpl; intros E; try discriminate; split; discriminate.
Qed.

Lemma sql_math1_some (f : float -> float) (a : real) (x : float) :
  sql_math1 f a = Some x -> a <> None.
Proof.
  destruct a; simpl; intros E; discriminate.
Qed.

Lemma distance_valid (rt : Runtime) (p1 p2 p3 lat lng : real) :
  valid_real (distance rt p1 p2 p3 lat lng).
Proof. apply sql_arith_valid. Qed.

(** NULL spreads through the distance expression: a distance that is a
    number was computed from a latitude and a longitude that are numbers. *)
Lemma distance_some (rt : Runtime) (p1 p2 p3 lat lng : real) (km : float) :
  distance rt p1 p2 p3 lat lng = Some km -> lat <> None /\ lng <> None.
Proof.
  unfold distance, sql_mul, sql_add, sql_sub, sql_acos, sql_cos, sql_sin, sql_radians.
  intros E.
  apply sql_arith_some in E. destruct E as [_ E].
  destruct (sql_math1 (libm_acos rt) _) as [y|] eqn:Ey; [|congruence].
  apply sql_math1_some in Ey.
  destruct (sql_arith PrimFloat.add _ _) as [z|] eqn:Ez; [|congruence].
  apply sql_arith_some in Ez. destruct Ez as [Ez _].
  destruct (sql_arith PrimFloat.mul (sql_arith PrimFloat.mul _ _) _) as [w|] eqn:Ew;
    [|congruence].
  apply sql_arith_some in Ew. destruct Ew as [Ea Eb].
  split.
  - destruct lat; [discriminate|].
    exfalso. apply Ea. simpl.
    destruct (sql_math1 (libm_cos rt) (sql_math1 _ p1)); reflexivity.
  - destruct lng; [discriminate|].
    exfalso. apply Eb. reflexivity.
Qed.

Lemma where_true_lt_some (a : real) (b : sqlval) :
  where_true (sql_lt a b) = true -> exists km, a = Some km.
Proof.
  destruct a as [x|]; simpl; [eauto|discriminate].
Qed.

Lemma user_has_id_spec (i : string) (u : user_row) :
  user_has_id i u = true <-> u_id u = Some i.
Proof.
  unfold user_has_id. destruct (u_id u) as [j|].
  - rewrite String.eqb_eq. split; congruence.
  - split; discriminate.
Qed.

Lemma post_has_id_spec (i : string) (p : post_row) :
  post_has_id i p = true <-> p_id p = Some i.
Proof.
  unfold post_has_id. destruct (p_id p) as [j|].
  - rewrite String.eqb_eq. split; congruence.
  - split; discriminate.
Qed.

(** ** The rows of the two SELECT statements *)

Lemma select_workers_In (rt : Runtime) (p1 p2 p3 : real) (p4 : sqlval)
    (d : Database) (h : worker_hit) :
  In h (select_workers rt p1 p2 p3 p4 d) <->
  In (w_user h) (users d) /\
  w_distance h = distance rt p1 p2 p3 (u_lat (w_user h)) (u_lng (w_user h)) /\
  u_role (w_user h) = "worker" /\
  where_true (sql_lt (w_distance h) p4) = true.
Proof.
  unfold select_workers.
  rewrite order_by_In, filter_In, in_map_iff, andb_true_iff, String.eqb_eq.
  split.
  - intros [[u [<- Hu]] [Hr Hw]]. simpl in *. auto.
  - intros [Hu [Hd [Hr Hw]]]. split; [|auto].
    exists (w_user h). split; [|assumption].
    destruct h as [u km]; simpl in *. now rewrite Hd.
Qed.

Lemma posts_join_users_In (d : Database) (p : post_row) (u : user_row) :
  In (p, u) (posts_join_users d) <->
  In p (posts d) /\ In u (users d) /\ u_id u = Some (p_user_id p).
Proof.
  unfold posts_join_users. rewrite in_flat_map. split.
  - intros [p' [Hp Hin]]. apply in_map_iff in Hin.
    destruct Hin as [u' [E Hu]]. inversion E; subst.
    apply filter_In in Hu. destruct Hu as [Hu Hid].
    apply user_has_id_spec in Hid. auto.
  - intros [Hp [Hu Hid]]. exists p. split; [assumption|].
    apply in_map, filter_In. split; [assumption|].
    now apply user_has_id_spec.
Qed.

Lemma select_posts_In (rt : Runtime) (p1 p2 p3 : real) (p4 : sqlval)
    (d : Database) (h : post_hit) :
  In h (select_posts rt p1 p2 p3 p4 d) <->
  (exists u, In (h_post h, u) (posts_join_users d) /\ h_user_name h = u_name u) /\
  h_distance h = distance rt p1 p2 p3
                   (Some (p_lat (h_post h))) (Some (p_lng (h_post h))) /\
  where_true (sql_lt (h_distance h) p4) = true.
Proof.
  unfold select_posts.
  rewrite order_by_In, filter_In, in_map_iff.
  split.
  - intros [[[p u] [<- Hpu]] Hw]. simpl in *. eauto.
  - intros [[u [Hpu Hn]] [Hd Hw]]. split; [|assumption].
    exists (h_post h, u). split; [|assumption].
    destruct h as [p n km]; simpl in *. now rewrite Hd, Hn.
Qed.

(** With a number as its fourth parameter, the statement keeps exactly the
    rows whose distance is below it. *)
Lemma select_workers_number_radius (rt : Runtime) (p1 p2 p3 : real) (r : float)
    (d : Database) (h : worker_hit) :
  In h (select_workers rt p1 p2 p3 (VReal r) d) <->
  In (w_user h) (users d) /\
  w_distance h = distance rt p1 p2 p3 (u_lat (w_user h)) (u_lng (w_user h)) /\
  u_role (w_user h) = "worker" /\
  exists km, w_distance h = Some km /\ (km <? r)%float = true.
Proof.
  rewrite select_workers_In.
  destruct (w_distance h) as [km|] eqn:E; simpl.
  - split; intros [Hu [Hd [Hr Hw]]]; repeat split; auto.
    + exists km. split; [reflexivity|]. now destruct (km <? r)%float.
    + destruct Hw as [km' [E' Hlt]]. inversion E'; subst. now rewrite Hlt.
  - split; intros [Hu [Hd [Hr Hw]]]; [discriminate|].
    destruct Hw as [km [E' _]]. discriminate.
Qed.

(** With a string as its fourth parameter, the statement keeps every row
    whose distance is a number, whatever the string says. *)
Lemma select_workers_text_radius (rt : Runtime) (p1 p2 p3 : real) (s : string)
    (d : Database) (h : worker_hit) :
  In h (select_workers rt p1 p2 p3 (VText s) d) <->
  In (w_user h) (users d) /\
  w_distance h = distance rt p1 p2 p3 (u_lat (w_user h)) (u_lng (w_user h)) /\
  u_role (w_user h) = "worker" /\
  w_distance h <> None.
Proof.
  rewrite select_workers_In.
  destruct (w_distance h) as [km|]; simpl; intuition congruence.
Qed.

Lemma select_posts_number_radius (rt : Runtime) (p1 p2 p3 : real) (r : float)
    (d : Database) (h : post_hit) :
  In h (select_posts rt p1 p2 p3 (VReal r) d) <->
  (exists u, In (h_post h, u) (posts_join_users d) /\ h_user_name h = u_name u) /\
  h_distance h = distance rt p1 p2 p3
                   (Some (p_lat (h_post h))) (Some (p_lng (h_post h))) /\
  exists km, h_distance h = Some km /\ (km <? r)%float = true.
Proof.
  rewrite select_posts_In.
  destruct (h_distance h) as [km|] eqn:E; simpl.
  - split; intros [Hu [Hd Hw]]; repeat split; auto.
    + exists km. split; [reflexivity|]. now destruct (km <? r)%float.
    + destruct Hw as [km' [E' Hlt]]. inversion E'; subst. now rewrite Hlt.
  - split; intros [Hu [Hd Hw]]; [discriminate|].
    destruct Hw as [km [E' _]]. discriminate.
Qed.

Lemma select_posts_text_radius (rt : Runtime) (p1 p2 p3 : real) (s : string)
    (d : Database) (h : post_hit) :
  In h (select_posts rt p1 p2 p3 (VText s) d) <->
  (exists u, In (h_post h, u) (posts_join_users d) /\ h_user_name h = u_name u) /\
  h_distance h = distance rt p1 p2 p3
                   (Some (p_lat (h_post h))) (Some (p_lng (h_post h))) /\
  h_distance h <> None.
Proof.
  rewrite select_posts_In.
  destruct (h_distance h) as [km|]; simpl; intuition congruence.
Qed.

(** ** The nearby routes *)

Lemma radius_missing : bind (radius_value None) = VReal 50%float.
Proof. reflexivity. Qed.

Lemma radius_given (s : string) : bind (radius_value (Some s)) = VText s.
Proof. reflexivity. Qed.

(** A larger number as fourth parameter keeps at least the same rows. *)
Lemma select_workers_monotone (rt : Runtime) (p1 p2 p3 : real) (r1 r2 : float)
    (d : Database) :
  (r1 <? r2)%float = true ->
  incl (select_workers rt p1 p2 p3 (VReal r1) d) (select_workers rt p1 p2 p3 (VReal r2) d).
Proof.
  intros Hr h. rewrite !select_workers_number_radius.
  intros [Hu [Hd [Hw [km [E Hlt]]]]]. repeat split; auto.
  exists km. split; [assumption|]. eapply F64.ltb_trans; eassumption.
Qed.

Lemma select_posts_monotone (rt : Runtime) (p1 p2 p3 : real) (r1 r2 : float)
    (d : Database) :
  (r1 <? r2)%float = true ->
  incl (select_posts rt p1 p2 p3 (VReal r1) d) (select_posts rt p1 p2 p3 (VReal r2) d).
Proof.
  intros Hr h. rewrite !select_posts_number_radius.
  intros [Hu [Hd [km [E Hlt]]]]. repeat split; auto.
  exists km. split; [assumption|]. eapply F64.ltb_trans; eassumption.
Qed.

(** The radius of the query string does not reach the result: two requests
    that differ only in the radius they give get the same rows. *)
Lemma get_workers_nearby_any_radius (rt : Runtime) (d : Database)
    (lat lng : option string) (s1 s2 : string) :
  get_workers_nearby rt {| q_lat := lat; q_lng := lng; q_radius := Some s1 |} d =
  get_workers_nearby rt {| q_lat := lat; q_lng := lng; q_radius := Some s2 |} d.
Proof.
  unfold get_workers_nearby, select_workers, sql_lt. simpl. reflexivity.
Qed.

Lemma get_posts_nearby_any_radius (rt : Runtime) (d : Database)
    (lat lng : option string) (s1 s2 : string) :
  get_posts_nearby rt {| q_lat := lat; q_lng := lng; q_radius := Some s1 |} d =
  get_posts_nearby rt {| q_lat := lat; q_lng := lng; q_radius := Some s2 |} d.
Proof.
  unfold get_posts_nearby, select_posts, sql_lt. simpl. reflexivity.
Qed.

(** C1: the nearby routes are to keep exactly the candidates whose distance
    is below the radius.  Run on the request [?lat=0&lng=0&radius=10], both
    routes return the candidate a degree of longitude away, whose distance
    (about 111 km) is not below 10: the radius of the query string is bound
    as a string, and the comparison of a number with a string is true.
    Likewise [?lat=0&lng=0&radius=0] returns the workers at the origin, at
    distance 0, which is not below 0. *)
Theorem explicit_radius_not_applied :
  map (fun h => (u_id (w_user h), where_true (sql_lt (w_distance h) (VReal 10%float))))
      (get_workers_nearby example_runtime (at_origin (Some "10")) near_and_far)
    = [(Some "near", true); (Some "far", false)] /\
  map (fun h => (p_id (h_post h), where_true (sql_lt (h_distance h) (VReal 10%float))))
      (get_posts_nearby example_runtime (at_origin (Some "10")) listings_near_and_far)
    = [(Some "p_near", true); (Some "p_far", false)] /\
  map (fun h => (u_id (w_user h), w_distance h))
      (get_workers_nearby example_runtime (at_origin (Some "0")) two_at_origin)
    = [(Some "b", Some 0%float); (Some "a", Some 0%float)] /\
  (0 <? 0)%float = false.
Proof. repeat split. Qed.

(** C7: the result for a smaller radius is to be contained in the result for
    a larger one.  The request with [radius=10] returns the far candidate,
    the request without a radius (radius 50) does not, on both routes. *)
Theorem smaller_radius_returns_more :
  (map (fun h => u_id (w_user h))
       (get_workers_nearby example_runtime (at_origin (Some "10")) near_and_far)
     = [Some "near"; Some "far"] /\
   map (fun h => u_id (w_user h))
       (get_workers_nearby example_runtime (at_origin None) near_and_far)
     = [Some "near"]) /\
  (map (fun h => p_id (h_post h))
       (get_posts_nearby example_runtime (at_origin (Some "10")) listings_near_and_far)
     = [Some "p_near"; Some "p_far"] /\
   map (fun h => p_id (h_post h))
       (get_posts_nearby example_runtime (at_origin None) listings_near_and_far)
     = [Some "p_near"]).
Proof. repeat split. Qed.

(** ** Order of the result *)

Lemma StronglySorted_refine {A : Type} (R R' : A -> A -> Prop) (P : A -> Prop)
    (l : list A) :
  (forall a b, P a -> P b -> R a b -> R' a b) ->
  Forall P l -> StronglySorted R l -> StronglySorted R' l.
Proof.
  intros HR HP HS. induction HS as [|a l HS IH Ha]; [constructor|].
  inversion HP as [|? ? Pa Pl]; subst.
  constructor; [now apply IH|].
  rewrite Forall_forall in *. intros b Hb. apply HR; auto.
Qed.

Lemma order_le_distance_le (a b : real) :
  a <> None -> b <> None -> order_le a b = true -> distance_le a b.
Proof.
  destruct a, b; simpl; congruence.
Qed.

Lemma select_workers_sorted (rt : Runtime) (p1 p2 p3 : real) (p4 : sqlval)
    (d : Database) :
  StronglySorted (fun a b => distance_le (w_distance a) (w_distance b))
    (select_workers rt p1 p2 p3 p4 d).
Proof.
  apply StronglySorted_refine
    with (R := fun a b => order_le (w_distance a) (w_distance b) = true)
         (P := fun h => w_distance h <> None).
  - intros a b. apply order_le_distance_le.
  - apply Forall_forall. intros h Hh. apply select_workers_In in Hh.
    destruct Hh as [_ [_ [_ Hw]]]. apply where_true_lt_some in Hw.
    destruct Hw as [km ->]. discriminate.
  - apply order_by_sorted. apply Forall_forall. intros h Hh.
    apply filter_In in Hh. destruct Hh as [Hh _].
    apply in_map_iff in Hh. destruct Hh as [u [<- _]]. apply distance_valid.
Qed.

Lemma select_posts_sorted (rt : Runtime) (p1 p2 p3 : real) (p4 : sqlval)
    (d : Database) :
  StronglySorted (fun a b => distance_le (h_distance a) (h_distance b))
    (select_posts rt p1 p2 p3 p4 d).
Proof.
  apply StronglySorted_refine
    with (R := fun a b => order_le (h_distance a) (h_distance b) = true)
         (P := fun h => h_distance h <> None).
  - intros a b. apply order_le_distance_le.
  - apply Forall_forall. intros h Hh. apply select_posts_In in Hh.
    destruct Hh as [_ [_ Hw]]. apply where_true_lt_some in Hw.
    destruct Hw as [km ->]. discriminate.
  - apply order_by_sorted. apply Forall_forall. intros h Hh.
    apply filter_In in Hh. destruct Hh as [Hh _].
    apply in_map_iff in Hh. destruct Hh as [u [<- _]]. apply distance_valid.
Qed.

(** C2, as amended: for every origin, radius and store, the rows of a nearby
    route come in non-decreasing order of distance: each row's distance is
    at most that of every later row. *)
Theorem nearby_sorted_by_distance (rt : Runtime) (q : nearby_query) (d : Database) :
  StronglySorted (fun a b => distance_le (w_distance a) (w_distance b))
    (get_workers_nearby rt q d) /\
  StronglySorted (fun a b => distance_le (h_distance a) (h_distance b))
    (get_posts_nearby rt q d).
Proof.
  split; [apply select_workers_sorted | apply select_posts_sorted].
Qed.

(** C2, as stated, fails: worker "b" joined before worker "a", both are at
    the origin, and the route returns "b" before "a" although their
    distances are equal. *)
Lemma ties_in_scan_order_not_by_id :
  map (fun h => (u_id (w_user h), w_distance h))
      (get_workers_nearby example_runtime (at_origin None) two_at_origin)
    = [(Some "b", Some 0%float); (Some "a", Some 0%float)] /\
  ~ ties_by_id w_distance (fun h => u_id (w_user h))
      (get_workers_nearby example_runtime (at_origin None) two_at_origin).
Proof.
  split; [vm_compute; reflexivity|].
  intros T.
  specialize (T 0%nat 1%nat _ _ (Nat.lt_0_succ 0) eq_refl eq_refl eq_refl).
  vm_compute in T. discriminate.
Qed.

(** ** Candidates of the workers route *)

(** C9: a participant without a location is in no result of the workers
    route, for any origin and radius; every row of the result is a stored
    participant with role worker, a latitude and a longitude. *)
Theorem workers_nearby_candidates (rt : Runtime) (q : nearby_query) (d : Database) :
  (forall u, u_lat u = None \/ u_lng u = None ->
     ~ In u (map w_user (get_workers_nearby rt q d))) /\
  (forall h, In h (get_workers_nearby rt q d) ->
     In (w_user h) (users d) /\ u_role (w_user h) = "worker" /\
     u_lat (w_user h) <> None /\ u_lng (w_user h) <> None).
Proof.
  assert (K : forall h, In h (get_workers_nearby rt q d) ->
     In (w_user h) (users d) /\ u_role (w_user h) = "worker" /\
     u_lat (w_user h) <> None /\ u_lng (w_user h) <> None).
  { intros h Hh. apply select_workers_In in Hh.
    destruct Hh as [Hu [Hd [Hr Hw]]].
    apply where_true_lt_some in Hw. destruct Hw as [km E].
    rewrite Hd in E. apply distance_some in E. tauto. }
  split; [|exact K].
  intros u Hnull Hin. apply in_map_iff in Hin. destruct Hin as [h [<- Hh]].
  apply K in Hh. tauto.
Qed.

Lemma workers_nearby_candidates_witness :
  let u := {| u_id := Some "n"; u_name := "n"; u_role := "worker";
              u_lat := None; u_lng := None; u_last_active := 1%Z |} in
  In u (users no_location) /\
  ~ In u (map w_user (get_workers_nearby example_runtime (at_origin None) no_location)).
Proof.
  intros u. split; [now left|].
  apply (proj1 (workers_nearby_candidates example_runtime (at_origin None) no_location) u).
  left. reflexivity.
Defined.

(** C10: the response of the workers route holds, for every matched worker
    (a stored participant with role worker whose distance is a number that
    passes the radius test), the object with the six columns of the stored
    row as they are stored (id, name, role, latitude, longitude,
    last_active) and the computed distance; and it holds no other object. *)
Theorem workers_nearby_response_complete (rt : Runtime) (q : nearby_query)
    (d : Database) (o : list (string * json)) :
  In o (map worker_json (get_workers_nearby rt q d)) <->
  exists u la ln km,
    In u (users d) /\ u_role u = "worker" /\
    u_lat u = Some la /\ u_lng u = Some ln /\
    distance rt (bind_double (parse_coordinate rt (q_lat q)))
                (bind_double (parse_coordinate rt (q_lng q)))
                (bind_double (parse_coordinate rt (q_lat q)))
                (Some la) (Some ln) = Some km /\
    where_true (sql_lt (Some km) (bind (radius_value (q_radius q)))) = true /\
    o = [ ("id", match u_id u with
                 | Some i => JsonString i
                 | None => JsonNull
                 end);
          ("name", JsonString (u_name u));
          ("role", JsonString (u_role u));
          ("lat", JsonNumber la);
          ("lng", JsonNumber ln);
          ("last_active", JsonTime (u_last_active u));
          ("distance", JsonNumber km) ].
Proof.
  rewrite in_map_iff. split.
  - intros [h [<- Hh]].
    apply select_workers_In in Hh. destruct Hh as [Hu [Hd [Hr Hw]]].
    destruct (where_true_lt_some _ _ Hw) as [km E].
    pose proof E as E'. rewrite Hd in E'.
    destruct (distance_some _ _ _ _ _ _ _ E') as [Hla Hln].
    destruct (u_lat (w_user h)) as [la|] eqn:Ela; [|congruence].
    destruct (u_lng (w_user h)) as [ln|] eqn:Eln; [|congruence].
    exists (w_user h), la, ln, km. rewrite E in Hw.
    repeat split; auto.
    unfold worker_json. rewrite E, Ela, Eln.
    destruct (u_id (w_user h)); reflexivity.
  - intros [u [la [ln [km [Hu [Hr [Ela [Eln [Hd [Hw ->]]]]]]]]]].
    exists {| w_user := u; w_distance := Some km |}. split.
    + unfold worker_json. simpl. rewrite Ela, Eln.
      destruct (u_id u); reflexivity.
    + apply select_workers_In. simpl. rewrite Ela, Eln. auto.
Qed.

Lemma workers_nearby_response_complete_witness :
  In [ ("id", JsonString "near"); ("name", JsonString "near");
       ("role", JsonString "worker");
       ("lat", JsonNumber 0%float); ("lng", JsonNumber 0%float);
       ("last_active", JsonTime 1%Z); ("distance", JsonNumber 0%float) ]
     (map worker_json (get_workers_nearby example_runtime (at_origin None) near_and_far)).
Proof.
  apply (proj2 (workers_nearby_response_complete example_runtime (at_origin None)
                  near_and_far _)).
  exists {| u_id := Some "near"; u_name := "near"; u_role := "worker";
            u_lat := Some 0%float; u_lng := Some 0%float; u_last_active := 1%Z |},
         0%float, 0%float, 0%float.
  repeat split. now left.
Defined.

(** ** The distance of a point to itself *)

(** C8: the distance of a point to itself is to be 0.  At latitude 0.08,
    longitude 0, with the values the C library gives for [cos] and [sin] of
    that angle, the argument of [acos] comes out as 1.0000000000000002;
    [acos] is NaN there, so the distance is NULL and a worker at the
    caller's own position is in no response, whatever the radius. *)
Theorem distance_to_itself_null (rt : Runtime) :
  parseFloat rt "0.08" = 0x1.47ae147ae147bp-4%float ->
  parseFloat rt "0" = 0%float ->
  libm_cos rt 0x1.6e05a695f8191p-10%float = 0x1.ffffdf4abdd1ep-1%float ->
  libm_sin rt 0x1.6e05a695f8191p-10%float = 0x1.6e059ecaa87dcp-10%float ->
  libm_cos rt 0%float = 1%float ->
  PrimFloat.is_nan (libm_acos rt 0x1.0000000000001p+0%float) = true ->
  distance rt (Some 0x1.47ae147ae147bp-4%float) (Some 0%float)
    (Some 0x1.47ae147ae147bp-4%float)
    (Some 0x1.47ae147ae147bp-4%float) (Some 0%float) = None /\
  forall (radius : option string) (d : Database),
    ~ In (Some 0x1.47ae147ae147bp-4%float, Some 0%float)
        (map (fun h => (u_lat (w_user h), u_lng (w_user h)))
           (get_workers_nearby rt
              {| q_lat := Some "0.08"; q_lng := Some "0"; q_radius := radius |} d)).
Proof.
  intros Hp8 Hp0 Hcos Hsin Hcos0 Hacos.
  assert (D : distance rt (Some 0x1.47ae147ae147bp-4%float) (Some 0%float)
                (Some 0x1.47ae147ae147bp-4%float)
                (Some 0x1.47ae147ae147bp-4%float) (Some 0%float) = None).
  { unfold distance.
    change (sql_radians (Some 0x1.47ae147ae147bp-4%float))
      with (Some 0x1.6e05a695f8191p-10%float).
    change (sql_sub (sql_radians (Some 0%float)) (sql_radians (Some 0%float)))
      with (Some 0%float).
    unfold sql_cos, sql_sin, sql_acos, sql_math1, sql_result_double.
    rewrite Hcos, Hsin, Hcos0.
    change (sql_add _ _) with (Some 0x1.0000000000001p+0%float).
    cbv beta iota. unfold bind_double. rewrite Hacos. reflexivity. }
  split; [exact D|].
  intros radius d Hin. apply in_map_iff in Hin. destruct Hin as [h [E Hh]].
  inversion E as [[Ela Eln]]. clear E.
  apply select_workers_In in Hh. destruct Hh as [_ [Hd [_ Hw]]].
  simpl in Hd. rewrite Hp8, Hp0, Ela, Eln in Hd.
  change (bind_double 0x1.47ae147ae147bp-4%float)
    with (Some 0x1.47ae147ae147bp-4%float) in Hd.
  change (bind_double 0%float) with (Some 0%float) in Hd.
  rewrite D in Hd. rewrite Hd in Hw. discriminate Hw.
Qed.

Lemma distance_to_itself_null_witness :
  map (fun u => (u_id u, u_lat u, u_lng u)) (users worker_at_0_08)
    = [(Some "w", Some 0x1.47ae147ae147bp-4%float, Some 0%float)] /\
  ~ In (Some 0x1.47ae147ae147bp-4%float, Some 0%float)
      (map (fun h => (u_lat (w_user h), u_lng (w_user h)))
         (get_workers_nearby libm_at_0_08
            {| q_lat := Some "0.08"; q_lng := Some "0"; q_radius := None |}
            worker_at_0_08)).
Proof.
  split; [reflexivity|].
  apply (proj2 (distance_to_itself_null libm_at_0_08
                  eq_refl eq_refl eq_refl eq_refl eq_refl eq_refl)).
Defined.

(** ** Listings and their owners *)

(** With foreign keys enforced the posts route refuses a listing whose owner
    is not stored; without, it stores it. *)
Lemma insert_post_foreign_key (rt : Runtime) (now : timestamp) (d : Database)
    (i o t : string) (la ln : float) :
  existsb (post_has_id i) (posts d) = false ->
  existsb (user_has_id o) (users d) = false ->
  insert_post rt now (Some i) (Some o) (Some t) None None (Some la) (Some ln) d =
  if foreign_keys rt then Thrown SQLITE_CONSTRAINT_FOREIGNKEY
  else Ran {| users := users d;
              posts := posts d ++
                [ {| p_id := Some i; p_user_id := o; p_title := t;
                     p_description := None; p_category := None;
                     p_lat := la; p_lng := ln; p_created_at := now |} ] |}.
Proof.
  intros Hp Hu. unfold insert_post. rewrite Hp, Hu.
  destruct (foreign_keys rt); reflexivity.
Qed.

(** C3, as amended: for every store state, the listings-with-owner query
    behind GET /api/posts/nearby returns exactly the pairs of a stored
    listing and a stored participant whose id is the listing's owner id, so
    a listing whose owner id resolves to no participant is in no pair; every
    row of the route carries a stored listing and the name of the stored
    participant that owns it. *)
Theorem listings_with_resolvable_owner (rt : Runtime) (q : nearby_query)
    (d : Database) :
  (forall p u,
     In (p, u) (posts_join_users d) <->
     In p (posts d) /\ In u (users d) /\ u_id u = Some (p_user_id p)) /\
  Forall
    (fun h => exists u,
       In (h_post h) (posts d) /\ In u (users d) /\
       u_id u = Some (p_user_id (h_post h)) /\ h_user_name h = u_name u)
    (get_posts_nearby rt q d).
Proof.
  split; [apply posts_join_users_In|].
  apply Forall_forall. intros h Hh. apply select_posts_In in Hh.
  destruct Hh as [[u [Hpu Hn]] _]. apply posts_join_users_In in Hpu.
  exists u. tauto.
Qed.

(** C3, as stated, fails: the stored listing "p1" has an owner id that
    resolves to no participant, and the query returns nothing for it: no
    row with an absent owner name, from the join or from the route. *)
Lemma dangling_listing_not_returned :
  ~ (forall d p, In p (posts d) -> exists u, In (p, u) (posts_join_users d)) /\
  map p_id (posts dangling_store) = [Some "p1"] /\
  posts_join_users dangling_store = [] /\
  get_posts_nearby enforcing_runtime (at_origin None) dangling_store = [].
Proof.
  split; [|repeat split].
  intros K.
  destruct (K dangling_store _ (or_introl eq_refl)) as [u Hu].
  exact Hu.
Qed.

(** ** Writing routes *)

Lemma role_check_spec (r : string) :
  role_check r = true <-> r = "worker" \/ r = "employer".
Proof.
  unfold role_check. rewrite orb_true_iff, !String.eqb_eq. reflexivity.
Qed.

(** A body with a name (empty or not) and a role of worker or employer is
    stored, whatever its id and coordinates. *)
Lemma post_users_accepts (now : timestamp) (body : user_body) (d : Database)
    (n r : string) :
  ub_name body = Some n -> ub_role body = Some r ->
  r = "worker" \/ r = "employer" ->
  exists d', post_users now body d = (Success, d').
Proof.
  intros Hn Hr Hc. apply role_check_spec in Hc.
  unfold post_users, insert_or_replace_user. rewrite Hn, Hr, Hc.
  simpl. eauto.
Qed.

(** C4, as amended: the users route fails, leaving the store as it was,
    whenever the name is missing or the role is not one of worker and
    employer, and it succeeds only on a body that has a name and one of
    these two roles. *)
Theorem post_users_checks (now : timestamp) (body : user_body) (d : Database) :
  (ub_name body = None \/
   ~ (ub_role body = Some "worker" \/ ub_role body = Some "employer") ->
   exists e, post_users now body d = (Uncaught e, d)) /\
  (fst (post_users now body d) = Success ->
   ub_name body <> None /\
   (ub_role body = Some "worker" \/ ub_role body = Some "employer")).
Proof.
  unfold post_users, insert_or_replace_user.
  destruct (ub_name body) as [n|], (ub_role body) as [r|]; simpl.
  - destruct (role_check r) eqn:E; simpl.
    + apply role_check_spec in E. split.
      * intros [K|K]; [discriminate|]. exfalso. apply K.
        destruct E as [-> | ->]; auto.
      * intros _. split; [discriminate|]. destruct E as [-> | ->]; auto.
    + split; [eauto|discriminate].
  - split; [eauto|discriminate].
  - split; [eauto|discriminate].
  - split; [eauto|discriminate].
Qed.

Lemma post_users_checks_witness :
  exists e,
    post_users 7%Z
      {| ub_id := Some "x"; ub_name := Some "Xi"; ub_role := Some "boss";
         ub_lat := Some 0%float; ub_lng := Some 0%float |}
      near_and_far
    = (Uncaught e, near_and_far).
Proof.
  apply (proj1 (post_users_checks 7%Z
                  {| ub_id := Some "x"; ub_name := Some "Xi"; ub_role := Some "boss";
                     ub_lat := Some 0%float; ub_lng := Some 0%float |}
                  near_and_far)).
  right. intros [K|K]; discriminate K.
Defined.

(** C4, as stated, fails: a body with an empty name and coordinates far out
    of range is accepted and stored. *)
Lemma empty_name_and_wild_coordinates_accepted :
  post_users 7%Z
    {| ub_id := Some "x"; ub_name := Some ""; ub_role := Some "worker";
       ub_lat := Some 1000%float; ub_lng := Some (-1000)%float |}
    empty_db
  = (Success,
     {| users := [ {| u_id := Some "x"; u_name := ""; u_role := "worker";
                      u_lat := Some 1000%float; u_lng := Some (-1000)%float;
                      u_last_active := 7%Z |} ];
        posts := [] |}).
Proof. reflexivity. Qed.

Lemma existsb_filter_nil {A : Type} (f : A -> bool) (l : list A) :
  existsb f l = false -> filter f l = [].
Proof.
  induction l as [|a l IH]; simpl; [reflexivity|].
  destruct (f a); simpl; [discriminate|exact IH].
Qed.

Lemma filter_existsb {A : Type} (f : A -> bool) (l : list A) (a : A) :
  filter f l = [a] -> existsb f l = true.
Proof.
  intros E. apply existsb_exists. exists a.
  apply filter_In. rewrite E. now left.
Qed.

(** A second listing with an id that is already stored is refused in any
    case: for want of a NOT NULL column when one is missing, else for the
    primary key. *)
Lemma insert_post_same_id (rt : Runtime) (now : timestamp) (b : post_body)
    (d : Database) (i : string) :
  pb_id b = Some i -> existsb (post_has_id i) (posts d) = true ->
  exists e, post_posts rt now b d = (Uncaught e, d).
Proof.
  intros Hi Hex. unfold post_posts, insert_post. rewrite Hi, Hex.
  destruct (pb_userId b), (pb_title b), (bind_number (pb_lat b)),
    (bind_number (pb_lng b)); simpl; eauto.
Qed.

(** C5: after a listing with id [i] has been stored, a second call with the
    same id (and its required fields given) fails with the primary key
    conflict and leaves the store as it was: exactly one listing has id [i],
    and it carries the fields and the time of the first call. *)
Theorem insert_listing_twice (rt : Runtime) (now1 now2 : timestamp)
    (b1 b2 : post_body) (d d1 : Database) (i : string) :
  pb_id b1 = Some i -> pb_id b2 = Some i ->
  post_posts rt now1 b1 d = (Success, d1) ->
  required_given b2 ->
  post_posts rt now2 b2 d1 = (Uncaught SQLITE_CONSTRAINT_PRIMARYKEY, d1) /\
  exists row,
    filter (post_has_id i) (posts d1) = [row] /\
    p_id row = Some i /\
    pb_userId b1 = Some (p_user_id row) /\
    pb_title b1 = Some (p_title row) /\
    pb_description b1 = p_description row /\
    pb_category b1 = p_category row /\
    pb_lat b1 = Some (p_lat row) /\
    pb_lng b1 = Some (p_lng row) /\
    p_created_at row = now1.
Proof.
  intros Hi1 Hi2 H1 [Ho [Ht [Hla Hln]]].
  assert (K : exists row,
    filter (post_has_id i) (posts d1) = [row] /\
    p_id row = Some i /\
    pb_userId b1 = Some (p_user_id row) /\
    pb_title b1 = Some (p_title row) /\
    pb_description b1 = p_description row /\
    pb_category b1 = p_category row /\
    pb_lat b1 = Some (p_lat row) /\
    pb_lng b1 = Some (p_lng row) /\
    p_created_at row = now1).
  { unfold post_posts, insert_post, respond, bind_number, bind_double in H1.
    rewrite Hi1 in H1.
    destruct (pb_userId b1) as [o|]; [|discriminate].
    destruct (pb_title b1) as [t|]; [|discriminate].
    destruct (pb_lat b1) as [la|]; [|discriminate].
    destruct (PrimFloat.is_nan la); [discriminate|].
    destruct (pb_lng b1) as [ln|]; [|discriminate].
    destruct (PrimFloat.is_nan ln); [discriminate|].
    destruct (existsb (post_has_id i) (posts d)) eqn:Ex; [discriminate|].
    destruct (foreign_keys rt && negb (existsb (user_has_id o) (users d)));
      [discriminate|].
    simpl in H1. inversion H1; subst d1; clear H1. simpl.
    eexists. split.
    - rewrite filter_app, (existsb_filter_nil _ _ Ex). simpl.
      unfold post_has_id at 1. simpl. rewrite String.eqb_refl. reflexivity.
    - simpl. repeat split; reflexivity. }
  split; [|exact K].
  destruct K as [row [Hf _]]. apply filter_existsb in Hf.
  unfold post_posts, insert_post. rewrite Hi2, Hf.
  destruct (pb_userId b2); [|congruence].
  destruct (pb_title b2); [|congruence].
  destruct (bind_number (pb_lat b2)); [|congruence].
  destruct (bind_number (pb_lng b2)); [|congruence].
  reflexivity.
Qed.

Lemma insert_listing_twice_witness :
  exists d1,
    post_posts example_runtime 1%Z (listing_at "p1" "ghost" 0 0) empty_db
      = (Success, d1) /\
    post_posts example_runtime 2%Z (listing_at "p1" "other" 1 1) d1
      = (Uncaught SQLITE_CONSTRAINT_PRIMARYKEY, d1).
Proof.
  eexists. split; [reflexivity|].
  refine (proj1 (insert_listing_twice example_runtime 1%Z 2%Z
                   (listing_at "p1" "ghost" 0 0) (listing_at "p1" "other" 1 1)
                   empty_db _ "p1" eq_refl eq_refl eq_refl _)).
  unfold required_given; simpl. repeat split; discriminate.
Defined.

(** ** One participant per id *)

Lemma filter_filter_negb {A : Type} (f : A -> bool) (l : list A) :
  filter f (filter (fun a => negb (f a)) l) = [].
Proof.
  induction l as [|a l IH]; simpl; [reflexivity|].
  destruct (f a) eqn:E; simpl; [exact IH|]. now rewrite E.
Qed.

Lemma filter_filter_length {A : Type} (f g : A -> bool) (l : list A) :
  (List.length (filter f (filter g l)) <= List.length (filter f l))%nat.
Proof.
  induction l as [|a l IH]; simpl; [lia|].
  destruct (g a), (f a) eqn:E; simpl; try rewrite E; simpl; lia.
Qed.

(** The rows with id [i] after a successful call of the users route with
    id [i]: the new row and no other. *)
Lemma post_users_row (now : timestamp) (b : user_body) (d d' : Database)
    (i : string) :
  ub_id b = Some i -> post_users now b d = (Success, d') ->
  exists n r,
    ub_name b = Some n /\ ub_role b = Some r /\
    filter (user_has_id i) (users d') =
      [ {| u_id := Some i; u_name := n; u_role := r;
           u_lat := bind_number (ub_lat b); u_lng := bind_number (ub_lng b);
           u_last_active := now |} ].
Proof.
  intros Hi. unfold post_users, insert_or_replace_user, respond. rewrite Hi.
  destruct (ub_name b) as [n|]; [|discriminate].
  destruct (ub_role b) as [r|]; [|discriminate].
  destruct (role_check r); [|discriminate].
  intros E. inversion E; subst d'; clear E. simpl.
  exists n, r. repeat split.
  rewrite filter_app, filter_filter_negb. simpl.
  unfold user_has_id at 1. simpl. now rewrite String.eqb_refl.
Qed.

Lemma post_users_unique (now : timestamp) (b : user_body) (d : Database) :
  unique_user_ids d -> unique_user_ids (snd (post_users now b d)).
Proof.
  intros U. unfold post_users, insert_or_replace_user, respond.
  destruct (ub_name b) as [n|]; [|exact U].
  destruct (ub_role b) as [r|]; [|exact U].
  destruct (role_check r); [|exact U].
  simpl. intros j. simpl. rewrite filter_app, length_app. simpl.
  match goal with |- context [if ?c then _ else _] => destruct c eqn:E end; simpl.
  - apply user_has_id_spec in E. simpl in E. rewrite E.
    rewrite filter_filter_negb. simpl. lia.
  - specialize (U j). destruct (ub_id b) as [i|]; [|lia].
    pose proof (filter_filter_length (user_has_id j)
                  (fun u => negb (user_has_id i u)) (users d)).
    lia.
Qed.

Lemma post_posts_users (rt : Runtime) (now : timestamp) (b : post_body)
    (d : Database) :
  users (snd (post_posts rt now b d)) = users d.
Proof.
  unfold post_posts, insert_post, respond.
  destruct (pb_userId b), (pb_title b), (bind_number (pb_lat b)),
    (bind_number (pb_lng b)); try reflexivity.
  destruct (match pb_id b with Some i => _ | None => _ end); [reflexivity|].
  destruct (foreign_keys rt && _); reflexivity.
Qed.

Lemma handle_unique (rt : Runtime) (r : request) (d : Database) :
  unique_user_ids d -> unique_user_ids (handle rt r d).
Proof.
  destruct r as [now b|now b]; simpl.
  - apply post_users_unique.
  - intros U j. rewrite post_posts_users. apply U.
Qed.

Lemma replay_unique (rt : Runtime) (rs : list request) :
  unique_user_ids (replay rt rs).
Proof.
  unfold replay.
  assert (K : forall d, unique_user_ids d ->
                unique_user_ids (fold_left (fun d r => handle rt r d) rs d)).
  { induction rs as [|r rs IH]; simpl; intros d U; [exact U|].
    apply IH, handle_unique, U. }
  apply K. intros j. simpl. lia.
Qed.

(** C6, as amended: in every state the server reaches, no two participants
    have the same id; and two successful calls of the users route with the
    same id leave exactly one record with that id, which carries the second
    call's name, role and coordinates and, as [last_active], the time of the
    second call (as the record after the first call carried the time of the
    first). *)
Theorem one_participant_per_id (rt : Runtime) (rs : list request) :
  unique_user_ids (replay rt rs) /\
  forall (now1 now2 : timestamp) (b1 b2 : user_body) (d1 d2 : Database) (i : string),
    ub_id b1 = Some i -> ub_id b2 = Some i ->
    post_users now1 b1 (replay rt rs) = (Success, d1) ->
    post_users now2 b2 d1 = (Success, d2) ->
    unique_user_ids d2 /\
    exists row1 row2,
      filter (user_has_id i) (users d1) = [row1] /\
      filter (user_has_id i) (users d2) = [row2] /\
      Some (u_name row2) = ub_name b2 /\
      Some (u_role row2) = ub_role b2 /\
      u_lat row2 = bind_number (ub_lat b2) /\
      u_lng row2 = bind_number (ub_lng b2) /\
      u_last_active row1 = now1 /\
      u_last_active row2 = now2.
Proof.
  pose proof (replay_unique rt rs) as U0.
  split; [exact U0|].
  intros now1 now2 b1 b2 d1 d2 i Hi1 Hi2 H1 H2.
  pose proof (post_users_unique now1 b1 _ U0) as U1. rewrite H1 in U1.
  simpl in U1.
  pose proof (post_users_unique now2 b2 _ U1) as U2. rewrite H2 in U2.
  simpl in U2.
  destruct (post_users_row _ _ _ _ _ Hi1 H1) as [n1 [r1 [_ [_ F1]]]].
  destruct (post_users_row _ _ _ _ _ Hi2 H2) as [n2 [r2 [En [Er F2]]]].
  split; [assumption|].
  eexists. eexists. split; [exact F1|]. split; [exact F2|].
  simpl. repeat split; auto.
Qed.

Lemma one_participant_per_id_witness :
  exists d1 d2,
    post_users 1%Z (worker_at "w" 0 0) (replay example_runtime []) = (Success, d1) /\
    post_users 2%Z (worker_at "w" 1 1) d1 = (Success, d2) /\
    map (fun u => (u_lat u, u_lng u, u_last_active u)) (users d2)
      = [(Some 1%float, Some 1%float, 2%Z)] /\
    unique_user_ids d2.
Proof.
  eexists. eexists. split; [reflexivity|]. split; [reflexivity|].
  split; [reflexivity|].
  refine (proj1 (proj2 (one_participant_per_id example_runtime [])
                   1%Z 2%Z (worker_at "w" 0 0) (worker_at "w" 1 1) _ _ "w"
                   eq_refl eq_refl eq_refl eq_refl)).
Defined.

(** C6, as stated, fails: two calls with the same id and different
    coordinates within one second of the clock leave a record whose
    [last_active] is what it was after the first call, not a later time. *)
Lemma last_active_not_advanced_within_a_second :
  exists d1 d2 row1 row2,
    post_users 1%Z (worker_at "w" 0 0) empty_db = (Success, d1) /\
    post_users 1%Z (worker_at "w" 1 1) d1 = (Success, d2) /\
    filter (user_has_id "w") (users d1) = [row1] /\
    filter (user_has_id "w") (users d2) = [row2] /\
    (u_lat row2, u_lng row2) = (Some 1%float, Some 1%float) /\
    u_last_active row2 = u_last_active row1 /\
    ~ (u_last_active row1 < u_last_active row2)%Z.
Proof.
  do 4 eexists. repeat split; try reflexivity.
  simpl. lia.
Qed.

(** ** More on the nearby routes *)

Lemma filter_none {A : Type} (f : A -> bool) (l : list A) :
  (forall a, In a l -> f a = false) -> filter f l = [].
Proof.
  induction l as [|a l IH]; simpl; intros K; [reflexivity|].
  rewrite (K a (or_introl eq_refl)). apply IH. intros b Hb. apply K. now right.
Qed.

Lemma sql_arith_null_r (op : float -> float -> float) (a : real) :
  sql_arith op a None = None.
Proof. destruct a; reflexivity. Qed.

(** A NULL origin makes every distance NULL. *)
Lemma distance_null_origin (rt : Runtime) (p1 p2 lat lng : real) :
  p1 = None \/ p2 = None -> distance rt p1 p2 p1 lat lng = None.
Proof.
  intros [-> | ->]; [reflexivity|].
  unfold distance, sql_mul, sql_add, sql_sub.
  replace (sql_radians None) with (@None float) by reflexivity.
  rewrite sql_arith_null_r.
  replace (sql_cos rt None) with (@None float) by reflexivity.
  rewrite sql_arith_null_r. reflexivity.
Qed.

Lemma bind_double_nan (x : float) : PrimFloat.is_nan x = true -> bind_double x = None.
Proof. unfold bind_double. now intros ->. Qed.

(** Without a radius in the request, the workers route returns exactly the
    stored workers whose distance from the request's origin is a number
    below 50, each with that distance. *)
Theorem workers_nearby_default_radius (rt : Runtime) (lat lng : option string)
    (d : Database) (h : worker_hit) :
  In h (get_workers_nearby rt {| q_lat := lat; q_lng := lng; q_radius := None |} d) <->
  In (w_user h) (users d) /\
  u_role (w_user h) = "worker" /\
  w_distance h = distance rt (bind_double (parse_coordinate rt lat))
                   (bind_double (parse_coordinate rt lng))
                   (bind_double (parse_coordinate rt lat))
                   (u_lat (w_user h)) (u_lng (w_user h)) /\
  exists km, w_distance h = Some km /\ (km <? 50)%float = true.
Proof.
  unfold get_workers_nearby. simpl q_lat. simpl q_lng. simpl q_radius.
  rewrite radius_missing, select_workers_number_radius. tauto.
Qed.

(** Without a radius in the request, the posts route returns exactly the
    stored listings that have a stored owner and whose distance from the
    request's origin is a number below 50, each with its owner's name and
    that distance. *)
Theorem posts_nearby_default_radius (rt : Runtime) (lat lng : option string)
    (d : Database) (h : post_hit) :
  In h (get_posts_nearby rt {| q_lat := lat; q_lng := lng; q_radius := None |} d) <->
  (exists u, In (h_post h) (posts d) /\ In u (users d) /\
             u_id u = Some (p_user_id (h_post h)) /\ h_user_name h = u_name u) /\
  h_distance h = distance rt (bind_double (parse_coordinate rt lat))
                   (bind_double (parse_coordinate rt lng))
                   (bind_double (parse_coordinate rt lat))
                   (Some (p_lat (h_post h))) (Some (p_lng (h_post h))) /\
  exists km, h_distance h = Some km /\ (km <? 50)%float = true.
Proof.
  unfold get_posts_nearby. simpl q_lat. simpl q_lng. simpl q_radius.
  rewrite radius_missing, select_posts_number_radius.
  split.
  - intros [[u [Hpu Hn]] K]. split; [|exact K].
    apply posts_join_users_In in Hpu. exists u. tauto.
  - intros [[u [Hp [Hu [Hi Hn]]]] K]. split; [|exact K].
    exists u. split; [|exact Hn]. apply posts_join_users_In. tauto.
Qed.

(** With a radius in the request, whatever it says, both routes return
    exactly the candidates whose distance is a number: all that the request
    without a radius returns, and the candidates at 50 km and beyond as
    well. *)
Theorem radius_parameter_keeps_every_candidate (rt : Runtime)
    (lat lng : option string) (s : string) (d : Database) :
  (forall h,
     In h (get_workers_nearby rt {| q_lat := lat; q_lng := lng; q_radius := Some s |} d) <->
     In (w_user h) (users d) /\ u_role (w_user h) = "worker" /\
     w_distance h = distance rt (bind_double (parse_coordinate rt lat))
                      (bind_double (parse_coordinate rt lng))
                      (bind_double (parse_coordinate rt lat))
                      (u_lat (w_user h)) (u_lng (w_user h)) /\
     w_distance h <> None) /\
  (forall h,
     In h (get_posts_nearby rt {| q_lat := lat; q_lng := lng; q_radius := Some s |} d) <->
     (exists u, In (h_post h) (posts d) /\ In u (users d) /\
                u_id u = Some (p_user_id (h_post h)) /\ h_user_name h = u_name u) /\
     h_distance h = distance rt (bind_double (parse_coordinate rt lat))
                      (bind_double (parse_coordinate rt lng))
                      (bind_double (parse_coordinate rt lat))
                      (Some (p_lat (h_post h))) (Some (p_lng (h_post h))) /\
     h_distance h <> None) /\
  incl (get_workers_nearby rt {| q_lat := lat; q_lng := lng; q_radius := None |} d)
       (get_workers_nearby rt {| q_lat := lat; q_lng := lng; q_radius := Some s |} d) /\
  incl (get_posts_nearby rt {| q_lat := lat; q_lng := lng; q_radius := None |} d)
       (get_posts_nearby rt {| q_lat := lat; q_lng := lng; q_radius := Some s |} d).
Proof.
  unfold get_workers_nearby, get_posts_nearby.
  simpl q_lat. simpl q_lng. simpl q_radius.
  rewrite radius_missing, radius_given.
  split; [|split; [|split]].
  - intros h. rewrite select_workers_text_radius. tauto.
  - intros h. rewrite select_posts_text_radius. split.
    + intros [[u [Hpu Hn]] K]. split; [|exact K].
      apply posts_join_users_In in Hpu. exists u. tauto.
    + intros [[u [Hp [Hu [Hi Hn]]]] K]. split; [|exact K].
      exists u. split; [|exact Hn]. apply posts_join_users_In. tauto.
  - intros h. rewrite select_workers_number_radius, select_workers_text_radius.
    intros [Hu [Hd [Hr [km [E _]]]]]. repeat split; auto. congruence.
  - intros h. rewrite select_posts_number_radius, select_posts_text_radius.
    intros [Hu [Hd [km [E _]]]]. repeat split; auto. congruence.
Qed.

(** A request whose [lat] or [lng] is missing or does not parse to a number
    gets the empty list from both routes, not an error. *)
Theorem nearby_without_origin (rt : Runtime) (q : nearby_query) (d : Database) :
  PrimFloat.is_nan (parse_coordinate rt (q_lat q)) = true \/
  PrimFloat.is_nan (parse_coordinate rt (q_lng q)) = true ->
  get_workers_nearby rt q d = [] /\ get_posts_nearby rt q d = [].
Proof.
  intros Hnan.
  assert (K : forall la ln,
            distance rt (bind_double (parse_coordinate rt (q_lat q)))
              (bind_double (parse_coordinate rt (q_lng q)))
              (bind_double (parse_coordinate rt (q_lat q))) la ln = None).
  { intros la ln. apply distance_null_origin.
    destruct Hnan as [E|E]; [left|right]; now apply bind_double_nan. }
  unfold get_workers_nearby, get_posts_nearby, select_workers, select_posts.
  split.
  - rewrite filter_none; [reflexivity|].
    intros h Hh. apply in_map_iff in Hh. destruct Hh as [u [<- _]].
    simpl. rewrite K. simpl. apply andb_false_r.
  - rewrite filter_none; [reflexivity|].
    intros h Hh. apply in_map_iff in Hh. destruct Hh as [u [<- _]].
    simpl. rewrite K. reflexivity.
Qed.

Lemma nearby_without_origin_witness :
  get_workers_nearby example_runtime
    {| q_lat := None; q_lng := Some "0"; q_radius := None |} near_and_far = [] /\
  get_posts_nearby example_runtime
    {| q_lat := None; q_lng := Some "0"; q_radius := None |} near_and_far = [].
Proof.
  apply (nearby_without_origin example_runtime
           {| q_lat := None; q_lng := Some "0"; q_radius := None |} near_and_far).
  left. reflexivity.
Defined.

(** ** Histories of requests *)

Lemma replay_snoc (rt : Runtime) (rs : list request) (r : request) :
  replay rt (rs ++ [r]) = handle rt r (replay rt rs).
Proof. unfold replay. now rewrite fold_left_app. Qed.

(** Properties that the empty database has and every request keeps hold in
    every state the server reaches. *)
Lemma replay_ind (rt : Runtime) (P : Database -> Prop) :
  P empty_db -> (forall r d, P d -> P (handle rt r d)) ->
  forall rs, P (replay rt rs).
Proof.
  intros P0 Pstep rs. induction rs as [|r rs IH] using rev_ind.
  - exact P0.
  - rewrite replay_snoc. now apply Pstep.
Qed.

Lemma post_users_posts (now : timestamp) (b : user_body) (d : Database) :
  posts (snd (post_users now b d)) = posts d.
Proof.
  unfold post_users, insert_or_replace_user, respond.
  destruct (ub_name b), (ub_role b); try reflexivity.
  destruct (role_check _); reflexivity.
Qed.

(** What the posts route does to the table of listings: nothing, or one
    new row at the end. *)
Lemma post_posts_posts (rt : Runtime) (now : timestamp) (b : post_body)
    (d : Database) :
  posts (snd (post_posts rt now b d)) = posts d \/
  exists (o t : string) (la ln : float),
    pb_userId b = Some o /\
    (foreign_keys rt = true -> existsb (user_has_id o) (users d) = true) /\
    (forall i, pb_id b = Some i -> existsb (post_has_id i) (posts d) = false) /\
    posts (snd (post_posts rt now b d)) =
      (posts d ++ [ {| p_id := pb_id b; p_user_id := o; p_title := t;
                       p_description := pb_description b;
                       p_category := pb_category b;
                       p_lat := la; p_lng := ln; p_created_at := now |} ])%list.
Proof.
  unfold post_posts, insert_post, respond.
  destruct (pb_userId b) as [o|]; [|now left].
  destruct (pb_title b) as [t|]; [|now left].
  destruct (bind_number (pb_lat b)) as [la|]; [|now left].
  destruct (bind_number (pb_lng b)) as [ln|]; [|now left].
  destruct (match pb_id b with Some i => _ | None => _ end) eqn:Ei; [now left|].
  destruct (foreign_keys rt) eqn:Ef; simpl.
  - destruct (existsb (user_has_id o) (users d)) eqn:Eo; simpl; [|now left].
    right. exists o, t, la, ln. repeat split; auto.
    intros i Hi. now rewrite Hi in Ei.
  - right. exists o, t, la, ln. repeat split; auto; [discriminate|].
    intros i Hi. now rewrite Hi in Ei.
Qed.

(** Listings are only ever added: after any further requests, the listings
    stored before are still there, unchanged and in the same order, at the
    head of the table. *)
Theorem listings_append_only (rt : Runtime) (rs more : list request) :
  exists added,
    posts (replay rt (rs ++ more)) = (posts (replay rt rs) ++ added)%list /\
    (List.length added <= List.length more)%nat.
Proof.
  induction more as [|r more IH] using rev_ind.
  - exists []. rewrite !app_nil_r. split; [reflexivity|simpl; lia].
  - destruct IH as [added [E L]].
    rewrite app_assoc, replay_snoc. rewrite length_app. simpl.
    destruct r as [now b|now b]; simpl.
    + exists added. rewrite post_users_posts. split; [exact E|lia].
    + destruct (post_posts_posts rt now b (replay rt (rs ++ more)))
        as [K|[o [t [la [ln [_ [_ [_ K]]]]]]]]; rewrite K, E.
      * exists added. split; [reflexivity|lia].
      * eexists. rewrite <- app_assoc. split; [reflexivity|].
        rewrite length_app. simpl. lia.
Qed.

Lemma post_posts_unique (rt : Runtime) (now : timestamp) (b : post_body)
    (d : Database) :
  unique_post_ids d -> unique_post_ids (snd (post_posts rt now b d)).
Proof.
  intros U.
  destruct (post_posts_posts rt now b d) as [K|[o [t [la [ln [_ [_ [Hid K]]]]]]]];
    intros j; rewrite K; [apply U|].
  rewrite filter_app, length_app. simpl.
  match goal with |- context [if ?c then _ else _] => destruct c eqn:E end; simpl.
  - apply post_has_id_spec in E. simpl in E.
    rewrite (existsb_filter_nil _ _ (Hid j E)). simpl. lia.
  - specialize (U j). lia.
Qed.

(** In every state the server reaches, no two listings have the same id. *)
Theorem one_listing_per_id (rt : Runtime) (rs : list request) :
  unique_post_ids (replay rt rs).
Proof.
  apply replay_ind.
  - intros i. simpl. lia.
  - intros [now b|now b] d U; simpl.
    + intros i. rewrite post_users_posts. apply U.
    + now apply post_posts_unique.
Qed.

Lemma existsb_user_has_id_kept (i j : string) (row : user_row) (l : list user_row) :
  u_id row = Some i ->
  existsb (user_has_id j) l = true ->
  existsb (user_has_id j) (filter (fun u => negb (user_has_id i u)) l ++ [row]) = true.
Proof.
  intros Hrow Hex. rewrite existsb_app. simpl.
  destruct (user_has_id j row) eqn:E; [now rewrite orb_true_r|].
  rewrite orb_false_r.
  apply existsb_exists in Hex. destruct Hex as [u [Hu Hj]].
  apply existsb_exists. exists u. split; [|exact Hj].
  apply filter_In. split; [exact Hu|].
  destruct (user_has_id i u) eqn:Ei; [|reflexivity].
  apply user_has_id_spec in Ei, Hj.
  assert (i = j) by congruence. subst j.
  apply user_has_id_spec in Hrow. congruence.
Qed.

(** The users route never removes an id from the table. *)
Lemma post_users_keeps_ids (now : timestamp) (b : user_body) (d : Database)
    (j : string) :
  existsb (user_has_id j) (users d) = true ->
  existsb (user_has_id j) (users (snd (post_users now b d))) = true.
Proof.
  intros Hex. unfold post_users, insert_or_replace_user, respond.
  destruct (ub_name b) as [n|]; [|exact Hex].
  destruct (ub_role b) as [r|]; [|exact Hex].
  destruct (role_check r); [|exact Hex].
  simpl. destruct (ub_id b) as [i|].
  - now apply existsb_user_has_id_kept.
  - rewrite existsb_app, Hex. reflexivity.
Qed.

Lemma replay_owners_resolved (rt : Runtime) (rs : list request) :
  foreign_keys rt = true -> owners_resolved (replay rt rs).
Proof.
  intros Hfk. apply replay_ind.
  - intros p [].
  - intros [now b|now b] d R; simpl.
    + intros p Hp. rewrite post_users_posts in Hp.
      apply post_users_keeps_ids. now apply R.
    + intros p Hp. rewrite post_posts_users.
      destruct (post_posts_posts rt now b d) as [K|[o [t [la [ln [_ [Ho [_ K]]]]]]]];
        rewrite K in Hp; [now apply R|].
      apply in_app_or in Hp. destruct Hp as [Hp|[<-|[]]]; [now apply R|].
      simpl. now apply Ho.
Qed.

Lemma filter_singleton {A : Type} (f : A -> bool) (l : list A) :
  existsb f l = true -> (List.length (filter f l) <= 1)%nat ->
  exists a, filter f l = [a].
Proof.
  intros Hex Hlen. apply existsb_exists in Hex. destruct Hex as [a [Ha Hf]].
  assert (Hin : In a (filter f l)) by (apply filter_In; auto).
  destruct (filter f l) as [|x [|y t]]; simpl in *; [contradiction|eauto|lia].
Qed.

Lemma join_complete (us : list user_row) (l : list post_row) :
  (forall i, (List.length (filter (user_has_id i) us) <= 1)%nat) ->
  (forall p, In p l -> existsb (user_has_id (p_user_id p)) us = true) ->
  map fst (flat_map (fun p => map (pair p) (filter (user_has_id (p_user_id p)) us)) l)
  = l.
Proof.
  intros U. induction l as [|p l IH]; intros R; [reflexivity|].
  simpl. rewrite map_app, IH by (intros q Hq; apply R; now right).
  destruct (filter_singleton _ _ (R p (or_introl eq_refl)) (U (p_user_id p)))
    as [u ->].
  reflexivity.
Qed.

(** On a connection that enforces foreign keys, in every state the server
    reaches each listing has a stored owner, and the join behind the posts
    route pairs every stored listing with exactly one participant: its
    rows, read as listings, are the table of listings. *)
Theorem enforced_owners_join_complete (rt : Runtime) (rs : list request) :
  foreign_keys rt = true ->
  owners_resolved (replay rt rs) /\
  map fst (posts_join_users (replay rt rs)) = posts (replay rt rs).
Proof.
  intros Hfk.
  pose proof (replay_owners_resolved rt rs Hfk) as R.
  split; [exact R|].
  apply join_complete; [apply replay_unique|exact R].
Qed.

Lemma enforced_owners_join_complete_witness :
  map fst (posts_join_users
             (replay enforcing_runtime
                [PostPosts 1%Z (listing_at "p0" "u" 0 0);
                 PostUsers 2%Z (worker_at "u" 0 0);
                 PostPosts 3%Z (listing_at "p1" "u" 0 0)]))
  = posts (replay enforcing_runtime
             [PostPosts 1%Z (listing_at "p0" "u" 0 0);
              PostUsers 2%Z (worker_at "u" 0 0);
              PostPosts 3%Z (listing_at "p1" "u" 0 0)]).
Proof.
  exact (proj2 (enforced_owners_join_complete enforcing_runtime _ eq_refl)).
Defined.

(** ** Responses over histories *)

Lemma filter_perm {A : Type} (f : A -> bool) (l l' : list A) :
  Permutation l l' -> Permutation (filter f l) (filter f l').
Proof.
  induction 1 as [|a l l' _ IH|a b l|l l' l'' _ IH1 _ IH2]; simpl.
  - constructor.
  - destruct (f a); [now constructor|exact IH].
  - destruct (f a), (f b); try reflexivity. apply perm_swap.
  - now transitivity (filter f l').
Qed.

(** In every state the server reaches, the response of the workers route
    holds at most one object for each participant id. *)
Theorem workers_nearby_one_hit_per_id (rt : Runtime) (rs : list request)
    (q : nearby_query) (i : string) :
  (List.length
     (filter (fun h => user_has_id i (w_user h))
        (get_workers_nearby rt q (replay rt rs))) <= 1)%nat.
Proof.
  unfold get_workers_nearby, select_workers.
  rewrite (Permutation_length (filter_perm _ _ _ (order_by_perm _ _))).
  eapply Nat.le_trans; [apply filter_filter_length|].
  rewrite filter_map_swap, length_map. simpl.
  apply replay_unique.
Qed.

(** On a connection that enforces foreign keys, in every state the server
    reaches, a request without a radius gets exactly one object for each
    stored listing within 50 km and none for any other: the listings of the
    response are, up to their order, the stored listings whose distance is
    a number below 50. *)
Theorem posts_nearby_each_listing_once (rt : Runtime) (rs : list request)
    (lat lng : option string) :
  foreign_keys rt = true ->
  Permutation
    (map h_post
       (get_posts_nearby rt {| q_lat := lat; q_lng := lng; q_radius := None |}
          (replay rt rs)))
    (filter
       (fun p => where_true
                   (sql_lt
                      (distance rt (bind_double (parse_coordinate rt lat))
                         (bind_double (parse_coordinate rt lng))
                         (bind_double (parse_coordinate rt lat))
                         (Some (p_lat p)) (Some (p_lng p)))
                      (VReal 50%float)))
       (posts (replay rt rs))).
Proof.
  intros Hfk.
  unfold get_posts_nearby, select_posts. simpl q_lat. simpl q_lng. simpl q_radius.
  rewrite radius_missing.
  rewrite (Permutation_map h_post (order_by_perm _ _)).
  rewrite filter_map_swap, map_map. simpl.
  assert (E : map fst (posts_join_users (replay rt rs)) = posts (replay rt rs)).
  { apply join_complete; [apply replay_unique|].
    now apply replay_owners_resolved. }
  rewrite <- E, filter_map_swap. reflexivity.
Qed.

Lemma posts_nearby_each_listing_once_witness :
  Permutation
    (map h_post
       (get_posts_nearby enforcing_runtime (at_origin None)
          (replay enforcing_runtime
             [PostUsers 1%Z (worker_at "u" 0 0);
              PostPosts 2%Z (listing_at "p_far" "u" 0 1);
              PostPosts 3%Z (listing_at "p_near" "u" 0 0)])))
    [ {| p_id := Some "p_near"; p_user_id := "u"; p_title := "job";
         p_description := None; p_category := None;
         p_lat := 0; p_lng := 0; p_created_at := 3%Z |} ].
Proof.
  exact (posts_nearby_each_listing_once enforcing_runtime
           [PostUsers 1%Z (worker_at "u" 0 0);
            PostPosts 2%Z (listing_at "p_far" "u" 0 1);
            PostPosts 3%Z (listing_at "p_near" "u" 0 0)]
           (Some "0") (Some "0") eq_refl).
Defined.

(** ** More on the users route *)

Lemma filter_idem {A : Type} (f : A -> bool) (l : list A) :
  filter f (filter f l) = filter f l.
Proof.
  induction l as [|a l IH]; simpl; [reflexivity|].
  destruct (f a) eqn:E; simpl; [rewrite E; f_equal|]; exact IH.
Qed.

Lemma filter_length_split {A : Type} (f : A -> bool) (l : list A) :
  (List.length (filter (fun a => negb (f a)) l) + List.length (filter f l)
   = List.length l)%nat.
Proof.
  induction l as [|a l IH]; simpl; [reflexivity|].
  destruct (f a); simpl; lia.
Qed.

(** The table of participants after a successful call of the users route
    with id [i]: the other participants' rows as they were, then the new
    row. *)
Lemma post_users_table (now : timestamp) (b : user_body) (d d' : Database)
    (i : string) :
  ub_id b = Some i -> post_users now b d = (Success, d') ->
  exists n r,
    ub_name b = Some n /\ ub_role b = Some r /\ role_check r = true /\
    posts d' = posts d /\
    users d' =
      (filter (fun u => negb (user_has_id i u)) (users d) ++
       [ {| u_id := Some i; u_name := n; u_role := r;
            u_lat := bind_number (ub_lat b); u_lng := bind_number (ub_lng b);
            u_last_active := now |} ])%list.
Proof.
  intros Hi. unfold post_users, insert_or_replace_user, respond. rewrite Hi.
  destruct (ub_name b) as [n|]; [|discriminate].
  destruct (ub_role b) as [r|]; [|discriminate].
  destruct (role_check r) eqn:Er; [|discriminate].
  intros E. inversion E; subst d'; clear E. simpl.
  exists n, r. repeat split. exact Er.
Qed.

(** A successful call of the users route with id [i] leaves every other
    participant's record as it was, and in the same order; the number of
    participants grows by one when [i] was not stored and stays the same
    when one record had it. *)
Theorem upsert_leaves_others (now : timestamp) (b : user_body) (d d' : Database)
    (i : string) :
  ub_id b = Some i -> post_users now b d = (Success, d') ->
  filter (fun u => negb (user_has_id i u)) (users d') =
  filter (fun u => negb (user_has_id i u)) (users d) /\
  (List.length (users d') + List.length (filter (user_has_id i) (users d))
   = S (List.length (users d)))%nat /\
  posts d' = posts d.
Proof.
  intros Hi H.
  destruct (post_users_table _ _ _ _ _ Hi H) as [n [r [_ [_ [_ [Hp Hu]]]]]].
  rewrite Hu. repeat split; [| |exact Hp].
  - rewrite filter_app, filter_idem. simpl.
    unfold user_has_id at 2. simpl. rewrite String.eqb_refl. simpl.
    apply app_nil_r.
  - rewrite length_app. simpl.
    pose proof (filter_length_split (user_has_id i) (users d)). lia.
Qed.

Lemma upsert_leaves_others_witness :
  exists d',
    post_users 3%Z (worker_at "near" 5 5) near_and_far = (Success, d') /\
    map u_id (users d') = [Some "far"; Some "near"] /\
    filter (fun u => negb (user_has_id "near" u)) (users d') =
    filter (fun u => negb (user_has_id "near" u)) (users near_and_far).
Proof.
  eexists. split; [reflexivity|]. split; [reflexivity|].
  exact (proj1 (upsert_leaves_others 3%Z (worker_at "near" 5 5) near_and_far _
                  "near" eq_refl eq_refl)).
Defined.

(** Repeating a successful call of the users route, with the same body at
    the same time, succeeds again and changes nothing. *)
Theorem upsert_idempotent (now : timestamp) (b : user_body) (d d' : Database)
    (i : string) :
  ub_id b = Some i -> post_users now b d = (Success, d') ->
  post_users now b d' = (Success, d').
Proof.
  intros Hi H.
  destruct (post_users_table _ _ _ _ _ Hi H) as [n [r [Hn [Hr [Hc [Hp Hu]]]]]].
  unfold post_users, insert_or_replace_user, respond.
  rewrite Hi, Hn, Hr, Hc. f_equal.
  destruct d' as [us ps]. simpl in *. subst ps. f_equal.
  rewrite Hu at 2. f_equal.
  rewrite Hu, filter_app, filter_idem. simpl.
  unfold user_has_id at 2. simpl. rewrite String.eqb_refl. simpl.
  apply app_nil_r.
Qed.

Lemma upsert_idempotent_witness :
  exists d',
    post_users 3%Z (worker_at "near" 5 5) near_and_far = (Success, d') /\
    post_users 3%Z (worker_at "near" 5 5) d' = (Success, d').
Proof.
  eexists. split; [reflexivity|].
  exact (upsert_idempotent 3%Z (worker_at "near" 5 5) near_and_far _
           "near" eq_refl eq_refl).
Defined.

(** Without an id in the body nothing is replaced: every successful call
    of the users route adds a record, so the same body sent twice leaves
    two records. *)
Theorem upsert_without_id_adds (now : timestamp) (b : user_body) (d d' : Database) :
  ub_id b = None -> post_users now b d = (Success, d') ->
  exists row,
    users d' = (users d ++ [row])%list /\ u_id row = None /\
    Some (u_name row) = ub_name b /\ Some (u_role row) = ub_role b.
Proof.
  intros Hi. unfold post_users, insert_or_replace_user, respond. rewrite Hi.
  destruct (ub_name b) as [n|]; [|discriminate].
  destruct (ub_role b) as [r|]; [|discriminate].
  destruct (role_check r); [|discriminate].
  intros E. inversion E; subst d'; clear E. simpl.
  eexists. repeat split.
Qed.

Lemma upsert_without_id_adds_witness :
  exists row,
    users (snd (post_users 2%Z
                  {| ub_id := None; ub_name := Some "n"; ub_role := Some "worker";
                     ub_lat := None; ub_lng := None |} no_location))
    = (users no_location ++ [row])%list /\
    u_id row = None /\
    Some (u_name row) = Some "n" /\ Some (u_role row) = Some "worker".
Proof.
  exact (upsert_without_id_adds 2%Z
           {| ub_id := None; ub_name := Some "n"; ub_role := Some "worker";
              ub_lat := None; ub_lng := None |}
           no_location _ eq_refl eq_refl).
Defined.

(** After a participant has successfully joined again with a role other
    than worker, no response of the workers route holds that participant's
    id, whatever the request. *)
Theorem rejoined_employer_not_listed (rt : Runtime) (now : timestamp)
    (b : user_body) (d d' : Database) (i : string) (q : nearby_query) :
  ub_id b = Some i -> ub_role b <> Some "worker" ->
  post_users now b d = (Success, d') ->
  ~ In (Some i) (map (fun h => u_id (w_user h)) (get_workers_nearby rt q d')).
Proof.
  intros Hi Hrole H Hin.
  apply in_map_iff in Hin. destruct Hin as [h [Hid Hh]].
  apply select_workers_In in Hh. destruct Hh as [Hu [_ [Hr _]]].
  destruct (post_users_row _ _ _ _ _ Hi H) as [n [r [_ [Er F]]]].
  assert (Hf : In (w_user h) (filter (user_has_id i) (users d'))).
  { apply filter_In. split; [exact Hu|]. now apply user_has_id_spec. }
  rewrite F in Hf. destruct Hf as [E|[]].
  rewrite <- E in Hr. simpl in Hr. congruence.
Qed.

Lemma rejoined_employer_not_listed_witness :
  ~ In (Some "near")
      (map (fun h => u_id (w_user h))
         (get_workers_nearby example_runtime (at_origin None)
            (snd (post_users 3%Z
                    {| ub_id := Some "near"; ub_name := Some "near";
                       ub_role := Some "employer";
                       ub_lat := Some 0%float; ub_lng := Some 0%float |}
                    near_and_far)))).
Proof.
  apply (rejoined_employer_not_listed example_runtime 3%Z
           {| ub_id := Some "near"; ub_name := Some "near";
              ub_role := Some "employer";
              ub_lat := Some 0%float; ub_lng := Some 0%float |}
           near_and_far _ "near" (at_origin None) eq_refl).
  - discriminate.
  - reflexivity.
Defined.

(** The posts route shows the owner's current name: after a participant has
    successfully joined again under a name, every row of the route for a
    listing of that participant carries that name. *)
Theorem listing_shows_current_owner_name (rt : Runtime) (now : timestamp)
    (b : user_body) (d d' : Database) (o n : string) (q : nearby_query) :
  ub_id b = Some o -> ub_name b = Some n ->
  post_users now b d = (Success, d') ->
  Forall (fun h => p_user_id (h_post h) = o -> h_user_name h = n)
    (get_posts_nearby rt q d').
Proof.
  intros Hi Hn H. apply Forall_forall. intros h Hh Ho.
  apply select_posts_In in Hh. destruct Hh as [[u [Hpu Hname]] _].
  apply posts_join_users_In in Hpu. destruct Hpu as [_ [Hu Hid]].
  destruct (post_users_row _ _ _ _ _ Hi H) as [n' [r [En [_ F]]]].
  assert (Hf : In u (filter (user_has_id o) (users d'))).
  { apply filter_In. split; [exact Hu|]. apply user_has_id_spec. congruence. }
  rewrite F in Hf. destruct Hf as [E|[]].
  rewrite Hname, <- E. simpl. congruence.
Qed.

Lemma listing_shows_current_owner_name_witness :
  map h_user_name
    (get_posts_nearby example_runtime (at_origin None)
       (snd (post_users 9%Z
               {| ub_id := Some "u"; ub_name := Some "Una"; ub_role := Some "employer";
                  ub_lat := None; ub_lng := None |}
               listings_near_and_far)))
  = ["Una"] /\
  Forall (fun h => p_user_id (h_post h) = "u" -> h_user_name h = "Una")
    (get_posts_nearby example_runtime (at_origin None)
       (snd (post_users 9%Z
               {| ub_id := Some "u"; ub_name := Some "Una"; ub_role := Some "employer";
                  ub_lat := None; ub_lng := None |}
               listings_near_and_far))).
Proof.
  split; [reflexivity|].
  exact (listing_shows_current_owner_name example_runtime 9%Z
           {| ub_id := Some "u"; ub_name := Some "Una"; ub_role := Some "employer";
              ub_lat := None; ub_lng := None |}
           listings_near_and_far _ "u" "Una" (at_origin None)
           eq_refl eq_refl eq_refl).
Defined.

(** ** More on the posts route *)

(** The outcomes of the posts route, by the checks of the statement. *)
Lemma post_posts_outcomes (rt : Runtime) (now : timestamp) (b : post_body)
    (d : Database) :
  let taken := exists i, pb_id b = Some i /\
                         existsb (post_has_id i) (posts d) = true in
  let orphan := foreign_keys rt = true /\
                exists o, pb_userId b = Some o /\
                          existsb (user_has_id o) (users d) = false in
  (fst (post_posts rt now b d) = Success <->
   required_given b /\ ~ taken /\ ~ orphan) /\
  (post_posts rt now b d = (Uncaught SQLITE_CONSTRAINT_NOTNULL, d) <->
   ~ required_given b) /\
  (post_posts rt now b d = (Uncaught SQLITE_CONSTRAINT_PRIMARYKEY, d) <->
   required_given b /\ taken) /\
  (post_posts rt now b d = (Uncaught SQLITE_CONSTRAINT_FOREIGNKEY, d) <->
   required_given b /\ ~ taken /\ orphan).
Proof.
  unfold post_posts, insert_post, respond, required_given.
  destruct (pb_userId b) as [o|];
    [|simpl; repeat split; try tauto; try discriminate; intuition congruence].
  destruct (pb_title b) as [t|];
    [|simpl; repeat split; try tauto; try discriminate; intuition congruence].
  destruct (bind_number (pb_lat b)) as [la|];
    [|simpl; repeat split; try tauto; try discriminate; intuition congruence].
  destruct (bind_number (pb_lng b)) as [ln|];
    [|simpl; repeat split; try tauto; try discriminate; intuition congruence].
  assert (G : Some o <> None /\ Some t <> None /\ Some la <> None /\ Some ln <> None)
    by (repeat split; discriminate).
  destruct (pb_id b) as [i|].
  - destruct (existsb (post_has_id i) (posts d)) eqn:Ei.
    + assert (T : exists i0, Some i = Some i0 /\
                    existsb (post_has_id i0) (posts d) = true) by eauto.
      simpl. repeat split; try tauto; try discriminate.
    + assert (T : ~ exists i0, Some i = Some i0 /\
                    existsb (post_has_id i0) (posts d) = true).
      { intros [i0 [E K]]. inversion E; subst. congruence. }
      destruct (foreign_keys rt); simpl.
      * destruct (existsb (user_has_id o) (users d)) eqn:Eo; simpl.
        -- assert (O : ~ (true = true /\ exists o0, Some o = Some o0 /\
                            existsb (user_has_id o0) (users d) = false)).
           { intros [_ [o0 [E K]]]. inversion E; subst. congruence. }
           repeat split; try tauto; try discriminate.
        -- assert (O : true = true /\ exists o0, Some o = Some o0 /\
                            existsb (user_has_id o0) (users d) = false) by eauto.
           repeat split; try tauto; try discriminate.
      * assert (O : ~ (false = true /\ exists o0, Some o = Some o0 /\
                            existsb (user_has_id o0) (users d) = false)).
        { intros [K _]. discriminate. }
        repeat split; try tauto; try discriminate.
  - assert (T : ~ exists i0, None = Some i0 /\
                    existsb (post_has_id i0) (posts d) = true).
    { intros [i0 [E K]]. discriminate. }
    destruct (foreign_keys rt); simpl.
    + destruct (existsb (user_has_id o) (users d)) eqn:Eo; simpl.
      * assert (O : ~ (true = true /\ exists o0, Some o = Some o0 /\
                          existsb (user_has_id o0) (users d) = false)).
        { intros [_ [o0 [E K]]]. inversion E; subst. congruence. }
        repeat split; try tauto; try discriminate.
      * assert (O : true = true /\ exists o0, Some o = Some o0 /\
                          existsb (user_has_id o0) (users d) = false) by eauto.
        repeat split; try tauto; try discriminate.
    + assert (O : ~ (false = true /\ exists o0, Some o = Some o0 /\
                          existsb (user_has_id o0) (users d) = false)).
      { intros [K _]. discriminate. }
      repeat split; try tauto; try discriminate.
Qed.

(** ** The client against the server *)

Lemma role_text_checked (r : App.Role) : role_check (App.role_text r) = true.
Proof. destruct r; reflexivity. Qed.

Lemma json_number_bound (x : float) :
  PrimFloat.is_finite x = true ->
  exists y, bind_number (App.json_number x) = Some y.
Proof.
  intros Hfin. unfold App.json_number. rewrite Hfin. simpl.
  destruct (PrimFloat.is_zero x); [now exists 0%float|].
  exists x. unfold bind_double.
  unfold PrimFloat.is_finite in Hfin.
  destruct (PrimFloat.is_nan x); [discriminate|reflexivity].
Qed.

Lemma handle_keeps_ids (rt : Runtime) (r : request) (d : Database) (j : string) :
  existsb (user_has_id j) (users d) = true ->
  existsb (user_has_id j) (users (handle rt r d)) = true.
Proof.
  destruct r as [now b|now b]; simpl.
  - apply post_users_keeps_ids.
  - now rewrite post_posts_users.
Qed.

Lemma serve_keeps_ids (rt : Runtime) (rs : list request) (d : Database) (j : string) :
  existsb (user_has_id j) (users d) = true ->
  existsb (user_has_id j) (users (serve rt rs d)) = true.
Proof.
  unfold serve. revert d.
  induction rs as [|r rs IH]; simpl; intros d H; [exact H|].
  apply IH. now apply handle_keeps_ids.
Qed.

(** Whatever the name typed in and the role chosen, the join request that
    the client sends is accepted by the server in any state, and leaves
    exactly one record with the client's id: the name, the role and the
    location of the client, stamped with the time of the request. *)
Theorem client_join_accepted (MOCK_USER_ID name : string) (st st' : App.State)
    (body : user_body) (now : timestamp) (d : Database) :
  App.handleJoin MOCK_USER_ID st name = Some (body, st') ->
  exists d' loc,
    App.location st = Some loc /\
    post_users now body d = (Success, d') /\
    filter (user_has_id MOCK_USER_ID) (users d') =
      [ {| u_id := Some MOCK_USER_ID; u_name := name;
           u_role := App.role_text (App.role st);
           u_lat := bind_number (App.json_number (App.lat loc));
           u_lng := bind_number (App.json_number (App.lng loc));
           u_last_active := now |} ] /\
    option_map App.id (App.user st') = Some MOCK_USER_ID.
Proof.
  unfold App.handleJoin. destruct (App.location st) as [loc|]; [|discriminate].
  intros E. inversion E; subst body st'; clear E.
  assert (H : exists d', post_users now
                (App.stringify_user
                   {| App.id := MOCK_USER_ID; App.name := name;
                      App.as_role := App.role st;
                      App.at_lat := Some (App.lat loc);
                      App.at_lng := Some (App.lng loc) |}) d = (Success, d')).
  { unfold post_users, insert_or_replace_user, App.stringify_user. simpl.
    rewrite role_text_checked. simpl. eauto. }
  destruct H as [d' H]. exists d', loc. split; [reflexivity|].
  split; [exact H|]. split; [|reflexivity].
  assert (Hi : ub_id (App.stringify_user
                        {| App.id := MOCK_USER_ID; App.name := name;
                           App.as_role := App.role st;
                           App.at_lat := Some (App.lat loc);
                           App.at_lng := Some (App.lng loc) |})
               = Some MOCK_USER_ID) by reflexivity.
  destruct (post_users_row _ _ _ _ _ Hi H) as [n [r [En [Er F]]]].
  simpl in En, Er. inversion En; inversion Er; subst n r. exact F.
Qed.

Lemma client_join_accepted_witness :
  exists body st' d',
    App.handleJoin "user_1" (example_state App.employer "") "" = Some (body, st') /\
    post_users 5%Z body near_and_far = (Success, d') /\
    map u_id (filter (user_has_id "user_1") (users d')) = [Some "user_1"].
Proof.
  destruct (App.handleJoin "user_1" (example_state App.employer "") "")
    as [[body st']|] eqn:E; [|discriminate E].
  destruct (client_join_accepted _ _ _ _ _ 5%Z near_and_far E)
    as [d' [loc [_ [H [F _]]]]].
  exists body, st', d'. split; [reflexivity|]. split; [exact H|].
  rewrite F. reflexivity.
Defined.

Lemma client_join_stored (MOCK_USER_ID name : string) (st st1 : App.State)
    (jb : user_body) (now : timestamp) (d : Database) :
  App.handleJoin MOCK_USER_ID st name = Some (jb, st1) ->
  option_map App.id (App.user st1) = Some MOCK_USER_ID /\
  existsb (user_has_id MOCK_USER_ID) (users (snd (post_users now jb d))) = true.
Proof.
  unfold App.handleJoin. destruct (App.location st) as [loc|]; [|discriminate].
  intros E. inversion E; subst jb st1; clear E. split; [reflexivity|].
  unfold post_users, insert_or_replace_user, App.stringify_user. simpl.
  rewrite role_text_checked. simpl.
  rewrite existsb_app. simpl.
  match goal with |- context [user_has_id ?i ?row || false] =>
    replace (user_has_id i row) with true
      by (symmetry; now apply user_has_id_spec)
  end.
  simpl. apply orb_true_r.
Qed.

(** Once the client has joined, a listing that it creates from a finite
    location under an id not stored yet is stored, whatever requests the
    server has handled in between, whether or not foreign keys are enforced
    and whatever the title and the description (empty ones too); the listing
    has the client's id as owner and the form's title and category. *)
Theorem client_listing_stored (rt : Runtime) (MOCK_USER_ID post_id name : string)
    (st st1 st2 st3 : App.State) (jb : user_body) (pb : post_body)
    (loc : App.Location) (now1 now2 : timestamp) (d : Database)
    (more : list request) :
  App.handleJoin MOCK_USER_ID st name = Some (jb, st1) ->
  App.user st2 = App.user st1 ->
  App.location st2 = Some loc ->
  PrimFloat.is_finite (App.lat loc) = true ->
  PrimFloat.is_finite (App.lng loc) = true ->
  App.handleCreatePost post_id st2 = Some (pb, st3) ->
  existsb (post_has_id post_id)
    (posts (serve rt more (snd (post_users now1 jb d)))) = false ->
  exists d3 row,
    post_posts rt now2 pb (serve rt more (snd (post_users now1 jb d)))
      = (Success, d3) /\
    users d3 = users (serve rt more (snd (post_users now1 jb d))) /\
    posts d3 = (posts (serve rt more (snd (post_users now1 jb d))) ++ [row])%list /\
    p_id row = Some post_id /\ p_user_id row = MOCK_USER_ID /\
    p_title row = App.postTitle st2 /\
    p_description row = Some (App.postDesc st2) /\
    p_category row = Some (App.postCategory st2) /\
    p_created_at row = now2.
Proof.
  intros Hjoin Huser Hloc Hlat Hlng Hpost Hfresh.
  destruct (client_join_stored MOCK_USER_ID name st st1 jb now1 d Hjoin)
    as [Hid Hex].
  set (d2 := serve rt more (snd (post_users now1 jb d))) in *.
  assert (Hown : existsb (user_has_id MOCK_USER_ID) (users d2) = true)
    by (apply serve_keeps_ids, Hex).
  unfold App.handleCreatePost in Hpost. rewrite Huser, Hloc in Hpost.
  destruct (App.user st1) as [u|]; [|discriminate].
  simpl in Hid. inversion Hid; subst. inversion Hpost; subst pb st3; clear Hpost.
  destruct (json_number_bound _ Hlat) as [la Ela].
  destruct (json_number_bound _ Hlng) as [ln Eln].
  unfold post_posts, insert_post. simpl.
  rewrite Ela, Eln, Hfresh, Hown, andb_false_r. simpl.
  eexists. eexists. split; [reflexivity|]. simpl. repeat split.
Qed.

Lemma client_listing_stored_witness :
  exists jb st1 pb st3 d3,
    App.handleJoin "user_1" (example_state App.worker "") "Ann" = Some (jb, st1) /\
    App.handleCreatePost "post_1" st1 = Some (pb, st3) /\
    post_posts enforcing_runtime 9%Z pb
      (serve enforcing_runtime [PostUsers 2%Z (worker_at "w" 0 1)]
         (snd (post_users 1%Z jb empty_db))) = (Success, d3) /\
    map p_user_id (posts d3) = ["user_1"].
Proof.
  destruct (App.handleJoin "user_1" (example_state App.worker "") "Ann")
    as [[jb st1]|] eqn:Ej; [|discriminate Ej].
  destruct (App.handleCreatePost "post_1" st1) as [[pb st3]|] eqn:Ep;
    [|inversion Ej; subst; discriminate Ep].
  destruct (client_listing_stored enforcing_runtime "user_1" "post_1" "Ann"
              (example_state App.worker "") st1 st1 st3 jb pb
              {| App.lat := 0; App.lng := 0 |} 1%Z 9%Z empty_db
              [PostUsers 2%Z (worker_at "w" 0 1)] Ej eq_refl)
    as [d3 [row [H [_ [Hp [_ [Ho _]]]]]]].
  - inversion Ej; subst. reflexivity.
  - reflexivity.
  - reflexivity.
  - exact Ep.
  - inversion Ej; subst. reflexivity.
  - exists jb, st1, pb, st3, d3. repeat split; try assumption.
    rewrite Hp. inversion Ej; subst. simpl. now rewrite Ho.
Defined.

(** The client asks without a radius, so what [fetchNearby] puts into the
    state is filtered with the default: an employer gets workers, a worker
    gets listings, all at a distance below 50, and the other list stays as
    it was. *)
Theorem client_fetch_within_default_radius (rt : Runtime) (br : App.Browser)
    (d : Database) (st : App.State) (loc : App.Location) :
  App.location st = Some loc ->
  match App.role st with
  | App.employer =>
      App.workers (App.fetchNearby rt br d st)
        = get_workers_nearby rt (App.nearby_request br loc) d /\
      Forall (fun h => u_role (w_user h) = "worker" /\
                       exists km, w_distance h = Some km /\ (km <? 50)%float = true)
        (App.workers (App.fetchNearby rt br d st)) /\
      App.posts (App.fetchNearby rt br d st) = App.posts st
  | App.worker =>
      App.posts (App.fetchNearby rt br d st)
        = get_posts_nearby rt (App.nearby_request br loc) d /\
      Forall (fun h => exists km, h_distance h = Some km /\ (km <? 50)%float = true)
        (App.posts (App.fetchNearby rt br d st)) /\
      App.workers (App.fetchNearby rt br d st) = App.workers st
  end.
Proof.
  intros Hloc. unfold App.fetchNearby. rewrite Hloc.
  destruct (App.role st); simpl; (split; [reflexivity|]); (split; [|reflexivity]);
    apply Forall_forall; intros h Hh; unfold App.nearby_request in Hh.
  - unfold get_posts_nearby in Hh. simpl q_radius in Hh.
    rewrite radius_missing in Hh.
    apply select_posts_number_radius in Hh. tauto.
  - unfold get_workers_nearby in Hh. simpl q_radius in Hh.
    rewrite radius_missing in Hh.
    apply select_workers_number_radius in Hh. tauto.
Qed.

Lemma client_fetch_within_default_radius_witness :
  map (fun h => u_id (w_user h))
    (App.workers
       (App.fetchNearby example_runtime example_browser near_and_far
          (example_state App.employer ""))) = [Some "near"] /\
  Forall (fun h => u_role (w_user h) = "worker" /\
                   exists km, w_distance h = Some km /\ (km <? 50)%float = true)
    (App.workers
       (App.fetchNearby example_runtime example_browser near_and_far
          (example_state App.employer ""))).
Proof.
  split; [reflexivity|].
  exact (proj1 (proj2
    (client_fetch_within_default_radius example_runtime example_browser
       near_and_far (example_state App.employer "")
       {| App.lat := 0; App.lng := 0 |} eq_refl))).
Defined.

(** ** The rows shown *)

Lemma includes_empty (s : string) : App.includes s "" = true.
Proof. destruct s; reflexivity. Qed.

Lemma filter_throwing_all {A : Type} (f : A -> App.outcome bool) (l : list A) :
  (forall a, In a l -> f a = App.Value true) ->
  App.filter_throwing f l = App.Value l.
Proof.
  induction l as [|a l IH]; simpl; intros K; [reflexivity|].
  rewrite (K a (or_introl eq_refl)), IH; [reflexivity|].
  intros b Hb. apply K. now right.
Qed.

Lemma filter_throwing_error {A : Type} (f : A -> App.outcome bool) (l : list A) :
  App.filter_throwing f l = App.TypeError <->
  exists a, In a l /\ f a = App.TypeError.
Proof.
  induction l as [|a l IH]; simpl.
  - split; [discriminate|]. intros [a [[] _]].
  - destruct (f a) as [keep|] eqn:E.
    + destruct (App.filter_throwing f l) as [r|].
      * split; [discriminate|]. intros [b [[<-|Hb] Hf]]; [congruence|].
        assert (K : App.Value r = App.TypeError) by (apply IH; eauto).
        discriminate K.
      * split; [|reflexivity]. intros _.
        destruct (proj1 IH eq_refl) as [b [Hb Hf]]. eauto.
    + split; [|reflexivity]. eauto.
Qed.

(** With an empty search box every fetched row is shown, in the fetched
    order, also a listing without a category. *)
Theorem empty_search_shows_everything (br : App.Browser) (st : App.State) :
  App.toLowerCase br "" = "" -> App.searchQuery st = "" ->
  App.filteredItems br st =
  App.Value match App.role st with
            | App.employer => inl (App.workers st)
            | App.worker => inr (App.posts st)
            end.
Proof.
  intros Hlow Hq. unfold App.filteredItems. rewrite Hq.
  destruct (App.role st).
  - rewrite filter_throwing_all; [reflexivity|].
    intros p _. unfold App.post_matches. now rewrite Hlow, includes_empty.
  - rewrite filter_throwing_all; [reflexivity|].
    intros w _. unfold App.worker_matches. now rewrite Hlow, includes_empty.
Qed.

Lemma empty_search_shows_everything_witness :
  App.filteredItems example_browser
    (App.fetchNearby example_runtime example_browser listings_near_and_far
       (example_state App.worker ""))
  = App.Value
      (inr (get_posts_nearby example_runtime (at_origin None) listings_near_and_far)).
Proof.
  exact (empty_search_shows_everything example_browser
           (App.fetchNearby example_runtime example_browser listings_near_and_far
              (example_state App.worker "")) eq_refl eq_refl).
Defined.

(** Computing the rows to show throws exactly when the client is in the
    worker role and some fetched listing has no category and a title that
    does not contain the search text; it never throws for an employer. *)
Theorem filtered_items_type_error (br : App.Browser) (st : App.State) :
  App.filteredItems br st = App.TypeError <->
  App.role st = App.worker /\
  exists p, In p (App.posts st) /\
            p_category (h_post p) = None /\
            App.includes (App.toLowerCase br (p_title (h_post p)))
              (App.toLowerCase br (App.searchQuery st)) = false.
Proof.
  unfold App.filteredItems. destruct (App.role st).
  - destruct (App.filter_throwing _ (App.posts st)) as [l|] eqn:E.
    + split; [discriminate|]. intros [_ [p [Hp [Hc Hi]]]].
      assert (K : App.filter_throwing
                    (App.post_matches br (App.searchQuery st)) (App.posts st)
                  = App.TypeError).
      { apply filter_throwing_error. exists p. split; [exact Hp|].
        unfold App.post_matches. now rewrite Hi, Hc. }
      congruence.
    + split; [|reflexivity]. intros _. split; [reflexivity|].
      apply filter_throwing_error in E. destruct E as [p [Hp Hf]].
      exists p. split; [exact Hp|]. unfold App.post_matches in Hf.
      destruct (App.includes _ _); [discriminate|].
      destruct (p_category (h_post p)); [discriminate|]. auto.
  - destruct (App.filter_throwing _ (App.workers st)) as [l|] eqn:E.
    + split; [discriminate|]. intros [K _]. discriminate.
    + apply filter_throwing_error in E. destruct E as [w [_ Hf]].
      discriminate.
Qed.

(** For a body whose text fields are strings or missing and whose
    coordinates are numbers or missing: the posts route stores the listing
    (the body's fields and the time of the request, as a new last row,
    everything else unchanged) exactly when its owner id, title, latitude
    and longitude are given, its id is not stored yet and, on a connection
    that enforces foreign keys, its owner is stored; nothing else is
    checked.  When it refuses, the error is the NOT NULL one if a required
    field is missing, else the primary key one if the id is stored, else
    the foreign key one, and the store stays as it was. *)
Theorem post_posts_checks (rt : Runtime) (now : timestamp) (b : post_body)
    (d : Database) :
  let taken := exists i, pb_id b = Some i /\
                         existsb (post_has_id i) (posts d) = true in
  let orphan := foreign_keys rt = true /\
                exists o, pb_userId b = Some o /\
                          existsb (user_has_id o) (users d) = false in
  ((exists (o t : string) (la ln : float),
      pb_userId b = Some o /\ pb_title b = Some t /\
      bind_number (pb_lat b) = Some la /\ bind_number (pb_lng b) = Some ln /\
      post_posts rt now b d =
        (Success,
         {| users := users d;
            posts := (posts d ++
                      [ {| p_id := pb_id b; p_user_id := o; p_title := t;
                           p_description := pb_description b;
                           p_category := pb_category b;
                           p_lat := la; p_lng := ln;
                           p_created_at := now |} ])%list |})) <->
   required_given b /\ ~ taken /\ ~ orphan) /\
  (fst (post_posts rt now b d) = Success <->
   required_given b /\ ~ taken /\ ~ orphan) /\
  (post_posts rt now b d = (Uncaught SQLITE_CONSTRAINT_NOTNULL, d) <->
   ~ required_given b) /\
  (post_posts rt now b d = (Uncaught SQLITE_CONSTRAINT_PRIMARYKEY, d) <->
   required_given b /\ taken) /\
  (post_posts rt now b d = (Uncaught SQLITE_CONSTRAINT_FOREIGNKEY, d) <->
   required_given b /\ ~ taken /\ orphan).
Proof.
  intros taken orphan.
  destruct (post_posts_outcomes rt now b d) as [Hs Herr].
  fold taken orphan in Hs, Herr.
  split; [|split; [exact Hs|exact Herr]].
  split.
  - intros [o [t [la [ln [_ [_ [_ [_ E]]]]]]]]. apply Hs. now rewrite E.
  - intros K. apply Hs in K.
    unfold post_posts, insert_post, respond in *.
    destruct (pb_userId b) as [o|]; [|discriminate K].
    destruct (pb_title b) as [t|]; [|discriminate K].
    destruct (bind_number (pb_lat b)) as [la|]; [|discriminate K].
    destruct (bind_number (pb_lng b)) as [ln|]; [|discriminate K].
    exists o, t, la, ln. repeat split.
    destruct (match pb_id b with Some i => _ | None => _ end); [discriminate K|].
    destruct (foreign_keys rt && _); [discriminate K|].
    reflexivity.
Qed.
